(** * glucose_sbi.glucose_simulator

    A shallow embedding of [src/glucose_sbi/glucose_simulator.py]: the
    parameter patcher ([set_custom_params] and its three helpers), the
    environment factory ([load_default_simulation_env],
    [create_simulation_envs_with_custom_params]), the batch runner
    ([simulate_batch]) and the orchestrator ([run_glucose_simulator]).

    Python objects that the module mutates in place (the scenario list and
    the patient's parameter record) live in an explicit store and are
    referred to by location, so that aliasing and [deepcopy] mean what they
    mean in Python.  Exceptions are outcomes of a state-and-error monad
    whose state survives a raise, as Python's does.

    What belongs to other packages is a parameter of the development: the
    tables and the engine of [simglucose], and what the class of the
    parameter record, [pandas.Series], does with an attribute name. *)

From Stdlib Require Import ZArith String List.
From Stdlib Require Import Floats.SpecFloat.
From stdpp Require Import base strings gmap list.

Open Scope string_scope.
Open Scope nat_scope.
Open Scope list_scope.
Open Scope stdpp_scope.

(** ** Python values *)

(** A Python [float] is an IEEE 754 binary64 datum. *)
Abbreviation float := spec_float.

Definition float_of_Z (z : Z) : float := binary_normalize 53 1024 z 0 false.

(** The values stored in scenario tuples and in the parameter record. *)
Inductive pyval : Type :=
| VInt (z : Z)
| VFloat (f : float)
| VStr (s : string).

(** One scenario entry, the tuple [(meal_name, amount)]. *)
Abbreviation meal := (pyval * pyval)%type.

(** Objects are referred to by location. *)
Definition loc := positive.

(** ** The simulator's objects *)

(** A naive [datetime]: the ordinal of the day and the second within it. *)
Record datetime : Type := Datetime { dt_date : Z; dt_seconds : Z }.

(** [T1DPatient]: [_params] refers to the parameter record. *)
Record T1DPatient : Type := Patient { pat_name : string; _params : loc }.

Record CGMSensor : Type := Sensor { sen_name : string; sen_seed : Z }.

Record InsulinPump : Type := Pump { pmp_name : string }.

(** [CustomScenario]: [.scenario] refers to the list of meal tuples. *)
Record CustomScenario : Type := Scenario { start_time : datetime; scn_scenario : loc }.

Record T1DSimEnv : Type := SimEnv {
  patient : T1DPatient;
  sensor : CGMSensor;
  pump : InsulinPump;
  env_scenario : CustomScenario
}.

Inductive BBController : Type := BBController_new.

(** [SimObj(env, controller, sim_time, animate)]; [sim_time] in seconds. *)
Record SimObj : Type := Sim {
  env : T1DSimEnv;
  controller : BBController;
  sim_time : Z;
  animate : bool
}.

(** [InferredParams] is declared in [glucose_sbi.prepare_priors]; this
    module reads its [params_names] only. *)
Record InferredParams : Type := Inferred { params_names : list string }.

(** [DeafultSimulationEnv]; [scenario] refers to the caller's list. *)
Record DeafultSimulationEnv : Type := Default {
  patient_name : string;
  sensor_name : string;
  pump_name : string;
  scenario : loc;
  hours : Z
}.

(** ** Exceptions, events and the store *)

Inductive exn : Type :=
| IndexError
| ValueError
| AttributeError
| TypeError
| OverflowError
| SimulationFailure.

Inductive outcome (A : Type) : Type :=
| Ok (a : A)
| Raise (e : exn).
Arguments Ok {A} a.
Arguments Raise {A} e.

(** What the module does besides computing: log lines, the life of the
    process pool, and each execution of [simulate()] on an object. *)
Inductive event : Type :=
| LogInfo (msg : string)
| PoolEnter
| PoolMap (n : nat)
| PoolExit
| Simulate (o : SimObj).

(** [lists] holds the Python lists of scenario tuples, [series] the
    parameter records ([patient._params]): what each one holds under a
    name, be it an entry under a label of its index or an attribute bound
    on the object itself; [trace] is the event log, oldest event first. *)
Record state : Type := State {
  lists : gmap loc (list meal);
  series : gmap loc (gmap string pyval);
  trace : list event
}.

Definition M (A : Type) : Type := state → state * outcome A.

Definition ret {A} (a : A) : M A := λ s, (s, Ok a).

Definition raise {A} (e : exn) : M A := λ s, (s, Raise e).

Definition bind {A B} (m : M A) (k : A → M B) : M B :=
  λ s, match m s with
       | (s', Ok a) => k a s'
       | (s', Raise e) => (s', Raise e)
       end.

Declare Scope py_scope.
Delimit Scope py_scope with py.
Notation "'do' x <- m 'in' k" := (bind m (λ x, k))
  (at level 10, x pattern, m at level 100, k at level 200) : py_scope.
Notation "'run' m 'in' k" := (bind m (λ _, k))
  (at level 10, m at level 100, k at level 200) : py_scope.
Open Scope py_scope.

(** [for x in l: f(x)] *)
Fixpoint for_each {A} (f : A → M unit) (l : list A) : M unit :=
  match l with
  | [] => ret tt
  | x :: l' => run f x in for_each f l'
  end.

(** [[f(x) for x in l]] *)
Fixpoint comprehension {A B} (f : A → M B) (l : list A) : M (list B) :=
  match l with
  | [] => ret []
  | x :: l' => do y <- f x in do ys <- comprehension f l' in ret (y :: ys)
  end.

(** [l[i]] for a non-negative index. *)
Definition getitem {A} (l : list A) (i : nat) : M A :=
  match l !! i with
  | Some x => ret x
  | None => raise IndexError
  end.

Definition emit (e : event) : M unit :=
  λ s, (State (lists s) (series s) (trace s ++ [e]), Ok tt).

(** Reading the list object at [l]. *)
Definition list_read (l : loc) : M (list meal) :=
  λ s, (s, Ok (lists s !!! l)).

(** [lst[i] = x] on the list object at [l]. *)
Definition list_setitem (l : loc) (i : nat) (x : meal) : M unit :=
  λ s, let lst := lists s !!! l in
       if decide (i < length lst)
       then (State (<[l := <[i := x]> lst]> (lists s)) (series s) (trace s), Ok tt)
       else (s, Raise IndexError).

(** ** The class of the parameter record

    [patient._params] is a [pandas.Series].  What an assignment
    [setattr(series, name, v)] does depends on what the class has under
    [name].  Nothing: the value goes to the entry under that label, or,
    where the index has no such label, becomes an attribute of the object.
    An attribute that takes the assignment, a method for one: the value
    becomes an attribute of the object.  An attribute that refuses it: a
    read-only property such as [values], [shape] or [iloc] raises
    [AttributeError], and [index] rejects a float with [TypeError]. *)
Inductive class_attr : Type :=
| NoAttribute
| Accepts
| Refuses (e : exn).

Definition refusal (a : class_attr) : option exn :=
  match a with
  | Refuses e => Some e
  | _ => None
  end.

(** The model parameters of a [simglucose] patient, the labels under which
    its parameter record holds them.  The engine reads each of them as
    [self._params.<label>], which reaches the record's entry because the
    class has no attribute of that name. *)
Definition simglucose_parameters : list string :=
  ["BW"; "EGPb"; "Gb"; "Ib"; "kabs"; "kmax"; "kmin"; "b"; "d"; "Vg"; "Vi"; "Ipb";
   "Vmx"; "Km0"; "k2"; "k1"; "p2u"; "m1"; "m5"; "CL"; "HEb"; "m2"; "m4"; "m30";
   "Ilb"; "ki"; "kp2"; "kp3"; "f"; "Gpb"; "ke1"; "ke2"; "Fsnc"; "Gtb"; "Vm0";
   "Rdb"; "PCR"; "kd"; "ksc"; "ka1"; "ka2"; "dosekempt"; "u2ss"; "isc1ss";
   "isc2ss"; "kp1"].

Section Collaborators.

(** What [pandas.Series] has under a name that is not a model parameter. *)
Variable Series_class : string → class_attr.

(** What [simglucose] raises when asked for a name its table lacks:
    [T1DPatient.withName], [CGMSensor.withName] and [InsulinPump.withName];
    [None] for a name the table has. *)
Variable unknown_patient : string → option exn.
Variable unknown_sensor : string → option exn.
Variable unknown_pump : string → option exn.

(** What the class has under a name. *)
Definition Series_attr (name : string) : class_attr :=
  if existsb (String.eqb name) simglucose_parameters then NoAttribute
  else Series_class name.

(** [setattr(obj, name, v)] on the record at [l].  Where the class refuses
    the assignment the exception is raised and nothing is written;
    otherwise [name] is bound to [v] on the record, whether or not the
    record had it before. *)
Definition setattr (l : loc) (name : string) (v : pyval) : M unit :=
  match refusal (Series_attr name) with
  | Some e => raise e
  | None =>
      λ s, (State (lists s) (<[l := <[name := v]> (series s !!! l)]> (series s))
              (trace s),
            Ok tt)
  end.

(** ** The parameter patcher *)

(** [sub in s] on strings. *)
Fixpoint contains (sub s : string) : bool :=
  String.prefix sub s ||
  match s with
  | EmptyString => false
  | String _ s' => contains sub s'
  end.

(** [enumerate(l)] *)
Definition enumerate {A} (l : list A) : list (nat * A) := imap pair l.

Definition _separate_parameters (param_names : list string) (theta_list : list float)
  : M (list nat * list float * list string * list float) :=
  let meal_indices :=
    (List.filter (λ ip, contains "meal" ip.2) (enumerate param_names)).*1 in
  do meal_values <- comprehension (getitem theta_list) meal_indices in
  let non_meal_indices_and_params :=
    List.filter (λ ip, negb (contains "meal" ip.2)) (enumerate param_names) in
  let other_params := non_meal_indices_and_params.*2 in
  do other_values <-
    comprehension (λ ip, getitem theta_list ip.1) non_meal_indices_and_params in
  ret (meal_indices, meal_values, other_params, other_values).

(** The loop of [_update_meal_parameters] from position [i] on; [steps]
    bounds the iterations left, and the list iterator stops by itself
    once [i] is past the end. *)
Fixpoint _update_meal_parameters_from (steps i : nat) (scenario : loc)
    (meal_values : list float) : M unit :=
  match steps with
  | 0 => ret tt
  | S steps' =>
      do sc <- list_read scenario in
      match sc !! i with
      | None => ret tt
      | Some (meal_name, _) =>
          do v <- getitem meal_values i in
          run list_setitem scenario i (meal_name, VFloat v) in
          _update_meal_parameters_from steps' (S i) scenario meal_values
      end
  end.

Definition _update_meal_parameters (scenario : loc) (meal_values : list float) : M unit :=
  do sc <- list_read scenario in
  _update_meal_parameters_from (length sc) 0 scenario meal_values.

Definition _update_patient_parameters (patient : T1DPatient)
    (params : list string) (values : list float) : M unit :=
  for_each (λ pv, setattr (_params patient) pv.1 (VFloat pv.2)) (zip params values).

Definition set_custom_params (default_simulation_env : SimObj) (theta : list float)
    (inferred_params : InferredParams) (infer_meal_params : bool) : M unit :=
  let theta_list := theta in
  let param_names := params_names inferred_params in
  let patient := patient (env default_simulation_env) in
  do (meal_indices, meal_values, other_params, other_values) <-
    _separate_parameters param_names theta_list in
  run (if infer_meal_params && negb (bool_decide (meal_indices = []))
       then _update_meal_parameters
              (scn_scenario (env_scenario (env default_simulation_env))) meal_values
       else ret tt) in
  _update_patient_parameters patient other_params other_values.

(** ** The environment factory *)

(** A new list object / record object: a location no live object has. *)
Definition alloc_list (v : list meal) : M loc :=
  λ s, let l := fresh (dom (lists s)) in
       (State (<[l := v]> (lists s)) (series s) (trace s), Ok l).

Definition alloc_series (v : gmap string pyval) : M loc :=
  λ s, let l := fresh (dom (series s)) in
       (State (lists s) (<[l := v]> (series s)) (trace s), Ok l).

Definition series_read (l : loc) : M (gmap string pyval) :=
  λ s, (s, Ok (series s !!! l)).

(** The two mutable objects a [SimObj] reaches: the patient's parameter
    record and the scenario's list. *)
Definition ploc (o : SimObj) : loc := _params (patient (env o)).

Definition sloc (o : SimObj) : loc := scn_scenario (env_scenario (env o)).

(** [o] with its two mutable objects at [p] and [l], the rest as it is. *)
Definition copy_at (o : SimObj) (p l : loc) : SimObj :=
  Sim (SimEnv (Patient (pat_name (patient (env o))) p)
              (sensor (env o)) (pump (env o))
              (Scenario (start_time (env_scenario (env o))) l))
      (controller o) (sim_time o) (animate o).

(** Everything an environment holds, with the two mutable objects read
    from the store: what [simulate()] runs on, and what two environments
    are compared by. *)
Record snapshot : Type := Snapshot {
  snap_patient : string;
  snap_params : gmap string pyval;
  snap_sensor : CGMSensor;
  snap_pump : InsulinPump;
  snap_start_time : datetime;
  snap_scenario : list meal;
  snap_controller : BBController;
  snap_sim_time : Z;
  snap_animate : bool
}.

Definition snapshot_of (s : state) (o : SimObj) : snapshot :=
  Snapshot (pat_name (patient (env o)))
           (series s !!! _params (patient (env o)))
           (sensor (env o)) (pump (env o))
           (start_time (env_scenario (env o)))
           (lists s !!! scn_scenario (env_scenario (env o)))
           (controller o) (sim_time o) (animate o).

(** ** Tensors and arrays *)

Inductive dtype : Type := float32 | float64.

Inductive torch_device : Type := cpu | cuda (index : nat).

Record Tensor : Type := MkTensor {
  tensor_data : list (list float);
  tensor_dtype : dtype;
  tensor_device : torch_device
}.

(** [np.stack] of one-dimensional arrays: at least one array, all of one
    shape, else [ValueError]. *)
Definition np_stack (arrays : list (list float)) : M (list (list float)) :=
  match arrays with
  | [] => raise ValueError
  | a :: rest =>
      if forallb (λ b, Nat.eqb (length b) (length a)) rest then ret arrays
      else raise ValueError
  end.

(** [torch.from_numpy] of a float64 array. *)
Definition from_numpy (a : list (list float)) : Tensor := MkTensor a float64 cpu.

(** Rounding a binary64 datum to binary32. *)
Definition to_float32 (f : float) : float :=
  match f with
  | S754_finite sg m e => binary_normalize 24 128 (cond_Zopp sg (Z.pos m)) e sg
  | _ => f
  end.

(** [Tensor.float()] *)
Definition Tensor_float (t : Tensor) : Tensor :=
  MkTensor (map (map to_float32) (tensor_data t)) float32 (tensor_device t).

(** [Tensor.to(device)] *)
Definition Tensor_to (t : Tensor) (device : torch_device) : Tensor :=
  MkTensor (tensor_data t) (tensor_dtype t) device.

(** ** The process pool *)

(** Modelled from the spec: [pathos]'s [ProcessingPool.map] is not part of
    the repository; section 5 of the specification gives its contract.
    Every unit of work goes to exactly one worker, workers complete in an
    order nobody controls, the call blocks until all are done or one
    raises, and the results come back in dispatch order.  The completion
    order is the [oracle]: at each step its head, taken modulo the number
    of pending tasks, picks the task that completes next. *)
Fixpoint pool_dispatch {A B} (f : A → M B) (steps : nat) (oracle : list nat)
    (pending : list (nat * A)) (finished : gmap nat B) : M (gmap nat B) :=
  match steps with
  | 0 => ret finished
  | S steps' =>
      match pending !! (hd 0 oracle `mod` length pending) with
      | None => ret finished
      | Some (i, x) =>
          do y <- f x in
          pool_dispatch f steps' (tl oracle)
            (delete (hd 0 oracle `mod` length pending) pending)
            (<[i := y]> finished)
      end
  end.

Definition Pool_map {A B} (oracle : list nat) (f : A → M B) (xs : list A) : M (list B) :=
  run emit (PoolMap (length xs)) in
  do finished <- pool_dispatch f (length xs) oracle (enumerate xs) ∅ in
  ret (omap (λ i, finished !! i) (seq 0 (length xs))).

(** [with Pool() as p: body]: the block is entered and left, however
    [body] ends.  Leaving it is an event and no more: what becomes of the
    workers then is up to [pathos]. *)
Definition with_Pool {A} (body : M A) : M A :=
  λ s, let '(s1, _) := emit PoolEnter s in
       let '(s2, r) := body s1 in
       ((emit PoolExit s2).1, r).

Section Simulator.

(** The parameter table behind [T1DPatient.withName], which belongs to
    [simglucose]: the record a patient of that name starts with. *)
Variable patient_params : string → gmap string pyval.

(** [simulate()] followed by [results()["CGM"].to_numpy()], which belong
    to [simglucose] too.  A run is self-contained (section 4.3 of the
    specification): it is decided by what the environment holds, and it
    either yields the series of readings or raises.  It works on the
    engine's own state and leaves the two objects of the store alone. *)
Variable cgm_of_run : snapshot → option (list float).

(** The index of the record that [T1DPatient.withName] builds: the labels
    of the table's row.  No assignment adds a label to it. *)
Definition Series_index (name : string) : gset string := dom (patient_params name).

Definition T1DPatient_withName (name : string) : M T1DPatient :=
  match unknown_patient name with
  | Some e => raise e
  | None =>
      do p <- alloc_series (patient_params name) in
      ret (Patient name p)
  end.

Definition CGMSensor_withName (name : string) (seed : Z) : M CGMSensor :=
  match unknown_sensor name with
  | Some e => raise e
  | None => ret (Sensor name seed)
  end.

Definition InsulinPump_withName (name : string) : M InsulinPump :=
  match unknown_pump name with
  | Some e => raise e
  | None => ret (Pump name)
  end.

(** [timedelta(hours=hours)], in seconds: a duration of more than
    999999999 days either way is an [OverflowError]. *)
Definition timedelta_hours (hours : Z) : M Z :=
  if (Z.abs (hours / 24) <=? 999999999)%Z then ret (hours * 3600)%Z
  else raise OverflowError.

(** [copy.deepcopy] of a [SimObj]: the two mutable objects it reaches are
    duplicated, the rest is immutable data.  The copy of the record is a
    new Series over the same index: it holds the labelled entries, and
    none of the attributes that [setattr] bound on the original outside
    the index. *)
Definition deepcopy (o : SimObj) : M SimObj :=
  do params <- series_read (ploc o) in
  let data :=
    filter (λ kv : string * pyval, kv.1 ∈ Series_index (pat_name (patient (env o))))
      params in
  do p' <- alloc_series data in
  do sc <- list_read (sloc o) in
  do l' <- alloc_list sc in
  ret (copy_at o p' l').

(** [now] is the reading of the clock, [datetime.now(tz=timezone.utc)].
    [CustomScenario] keeps the list it is given: the default environment
    and [env_settings] share one scenario list. *)
Definition load_default_simulation_env (env_settings : DeafultSimulationEnv)
    (hours : Z) (now : datetime) : M SimObj :=
  let start_time := Datetime (dt_date now) 0 in
  do patient <- T1DPatient_withName (patient_name env_settings) in
  do sensor <- CGMSensor_withName (sensor_name env_settings) 1 in
  do pump <- InsulinPump_withName (pump_name env_settings) in
  let scenario := Scenario start_time (scenario env_settings) in
  let controller := BBController_new in
  let env := SimEnv patient sensor pump scenario in
  do sim_time <- timedelta_hours hours in
  ret (Sim env controller sim_time false).

(** The body of the [for] loop of
    [create_simulation_envs_with_custom_params]. *)
Definition custom_sim_env_for (default_simulation_env : SimObj)
    (inferred_params : InferredParams) (infer_meal_params : bool)
    (theta_i : list float) : M SimObj :=
  do custom_sim_env <- deepcopy default_simulation_env in
  run set_custom_params custom_sim_env theta_i inferred_params infer_meal_params in
  ret custom_sim_env.

Definition create_simulation_envs_with_custom_params (theta : list (list float))
    (default_settings : DeafultSimulationEnv) (inferred_params : InferredParams)
    (hours : Z) (infer_meal_params : bool) (now : datetime) : M (list SimObj) :=
  do default_simulation_env <-
    load_default_simulation_env default_settings hours now in
  comprehension
    (custom_sim_env_for default_simulation_env inferred_params infer_meal_params)
    theta.

(** ** The batch runner *)

Definition simulate_glucose_dynamics (simulation_env : SimObj) : M (list float) :=
  run emit (Simulate simulation_env) in
  λ s, match cgm_of_run (snapshot_of s simulation_env) with
       | Some readings => (s, Ok readings)
       | None => (s, Raise SimulationFailure)
       end.

Definition log_info (logger : bool) (msg : string) : M unit :=
  if logger then emit (LogInfo msg) else ret tt.

(** [simulate_batch] with its local flag [pathos] as a parameter, so
    that both branches of the [if] can be run. *)
Definition simulate_batch_with (pathos : bool) (oracle : list nat)
    (simulations : list SimObj) (device : torch_device) (logger : bool) : M Tensor :=
  do results <-
    (if pathos
     then run log_info logger "Using pathos for parallel processing" in
          with_Pool (Pool_map oracle simulate_glucose_dynamics simulations)
     else comprehension simulate_glucose_dynamics simulations) in
  do results <- np_stack results in
  run log_info logger "Simulation took %s seconds" in
  ret (Tensor_to (Tensor_float (from_numpy results)) device).

(** The source sets [pathos = True] on entry. *)
Definition simulate_batch : list nat → list SimObj → torch_device → bool → M Tensor :=
  simulate_batch_with true.

(** ** The orchestrator *)

Definition run_glucose_simulator (oracle : list nat) (theta : list (list float))
    (default_settings : DeafultSimulationEnv) (inferred_params : InferredParams)
    (hours : Z) (device : torch_device) (infer_meal_params : bool) (logger : bool)
    (now : datetime) : M Tensor :=
  run log_info logger "Running the glucose simulator on theta of shape, %s" in
  do simulation_envs <-
    create_simulation_envs_with_custom_params theta default_settings
      inferred_params hours infer_meal_params now in
  simulate_batch oracle simulation_envs device logger.

End Simulator.

(** ** The patcher's computation as functions of the data

    These functions compute nothing the source does not; they name the
    parts of its result so that the lemmas below can speak of them. *)

Definition meal_indices_of (param_names : list string) : list nat :=
  (List.filter (λ ip, contains "meal" ip.2) (enumerate param_names)).*1.

Definition non_meal_of (param_names : list string) : list (nat * string) :=
  List.filter (λ ip, negb (contains "meal" ip.2)) (enumerate param_names).

Definition meal_values_of (param_names : list string) (theta : list float)
  : option (list float) :=
  mapM (λ i, theta !! i) (meal_indices_of param_names).

Definition other_values_of (param_names : list string) (theta : list float)
  : option (list float) :=
  mapM (λ ip : nat * string, theta !! ip.1) (non_meal_of param_names).

(** The scenario after the loop of [_update_meal_parameters] has gone as
    far as the meal values reach. *)
Fixpoint meal_patch (sc : list meal) (meal_values : list float) : list meal :=
  match sc, meal_values with
  | (meal_name, _) :: sc', v :: vs => (meal_name, VFloat v) :: meal_patch sc' vs
  | _, _ => sc
  end.

(** The record after [setattr] has bound every pair of [pvs]. *)
Definition set_attrs (rec : gmap string pyval) (pvs : list (string * float))
  : gmap string pyval :=
  foldl (λ m pv, <[pv.1 := VFloat pv.2]> m) rec pvs.

(** The record after the [setattr] calls of [_update_patient_parameters],
    and how the loop ends: it stops at the first name the class refuses,
    with the names before it bound. *)
Fixpoint set_attrs_upto (rec : gmap string pyval) (pvs : list (string * float))
  : gmap string pyval * outcome unit :=
  match pvs with
  | [] => (rec, Ok tt)
  | pv :: pvs' =>
      match refusal (Series_attr pv.1) with
      | Some e => (rec, Raise e)
      | None => set_attrs_upto (<[pv.1 := VFloat pv.2]> rec) pvs'
      end
  end.

(** Whether the loop writes at all: there is a first pair and its name is
    not refused. *)
Definition writes (pvs : list (string * float)) : bool :=
  match pvs with
  | [] => false
  | pv :: _ => bool_decide (refusal (Series_attr pv.1) = None)
  end.

(** Whether [set_custom_params] enters [_update_meal_parameters]. *)
Definition patches_meals (infer_meal_params : bool) (param_names : list string) : bool :=
  infer_meal_params && negb (bool_decide (meal_indices_of param_names = [])).

(** What [set_custom_params] makes of a scenario list [sc] and a parameter
    record [rec], and how it ends. *)
Definition patch_result (names : list string) (theta : list float) (infer : bool)
    (sc : list meal) (rec : gmap string pyval)
  : list meal * gmap string pyval * outcome unit :=
  match meal_values_of names theta, other_values_of names theta with
  | Some mv, Some ov =>
      let r := set_attrs_upto rec (zip (non_meal_of names).*2 ov) in
      if patches_meals infer names then
        if decide (length sc ≤ length mv)
        then (meal_patch sc mv, r.1, r.2)
        else (meal_patch sc mv, rec, Raise IndexError)
      else (sc, r.1, r.2)
  | _, _ => (sc, rec, Raise IndexError)
  end.

(** The same on a whole snapshot. *)
Definition patch_snapshot (names : list string) (theta : list float) (infer : bool)
    (sn : snapshot) : snapshot :=
  let r := patch_result names theta infer (snap_scenario sn) (snap_params sn) in
  Snapshot (snap_patient sn) r.1.2 (snap_sensor sn) (snap_pump sn)
           (snap_start_time sn) r.1.1 (snap_controller sn) (snap_sim_time sn)
           (snap_animate sn).

(** The environment that one deep copy of [d], patched with [row] in the
    state [s] and nothing else, comes out as. *)
Definition patched_alone (patient_params : string → gmap string pyval) (d : SimObj)
    (ip : InferredParams) (infer : bool) (row : list float) (s : state)
  : option snapshot :=
  match custom_sim_env_for patient_params d ip infer row s with
  | (s', Ok c) => Some (snapshot_of s' c)
  | (_, Raise _) => None
  end.

(** The default environment a build starts from, as a snapshot. *)
Definition baseline (patient_params : string → gmap string pyval)
    (env_settings : DeafultSimulationEnv) (hours : Z) (now : datetime) (s : state)
  : option snapshot :=
  match load_default_simulation_env patient_params env_settings hours now s with
  | (s1, Ok d) => Some (snapshot_of s1 d)
  | (_, Raise _) => None
  end.

(** [s'] has every object of [s], each with the content it has in [s],
    and the same event log: nothing that was there has been touched. *)
Definition extends (s s' : state) : Prop :=
  (∀ l, l ∈ dom (lists s) → lists s' !! l = lists s !! l) ∧
  (∀ l, l ∈ dom (series s) → series s' !! l = series s !! l) ∧
  trace s' = trace s.

(** The readings of a whole batch, when every run succeeds. *)
Definition readings_of (cgm_of_run : snapshot → option (list float)) (s : state)
    (simulations : list SimObj) : option (list (list float)) :=
  mapM (λ o, cgm_of_run (snapshot_of s o)) simulations.

(** What building the default environment raises, if anything: the
    first of the three lookups that fails, else the duration. *)
Definition load_error (env_settings : DeafultSimulationEnv) (hours : Z) : option exn :=
  match unknown_patient (patient_name env_settings) with
  | Some e => Some e
  | None =>
      match unknown_sensor (sensor_name env_settings) with
      | Some e => Some e
      | None =>
          match unknown_pump (pump_name env_settings) with
          | Some e => Some e
          | None =>
              if (Z.abs (hours / 24) <=? 999999999)%Z then None
              else Some OverflowError
          end
      end
  end.

(** Whether every attribute of the record of [o] is an entry under a
    label of its index: nothing has been bound on it outside the index. *)
Definition within_index (patient_params : string → gmap string pyval) (s : state)
    (o : SimObj) : Prop :=
  dom (series s !!! ploc o) ⊆ dom (patient_params (pat_name (patient (env o)))).

(** Whether [set_custom_params] may hand a name to [setattr] without the
    class refusing it: the name is a meal name, or the class does not
    refuse it. *)
Definition assignable (name : string) : Prop :=
  contains "meal" name = true ∨ refusal (Series_attr name) = None.

(** ** Sample data *)

Definition sample_params (name : string) : gmap string pyval :=
  {[ "BW" := VFloat (float_of_Z 68) ]}.

(** A stand-in engine: two readings equal to the body weight, and a
    failure when the record has none. *)
Definition sample_cgm (sn : snapshot) : option (list float) :=
  match snap_params sn !! "BW" with
  | Some (VFloat f) => Some [f; f]
  | _ => None
  end.

(** A fragment of the class's table, enough for the examples: three
    read-only properties, [index], and no attribute under any other name. *)
Definition sample_class (name : string) : class_attr :=
  if existsb (String.eqb name) ["values"; "shape"; "iloc"] then Refuses AttributeError
  else if String.eqb name "index" then Refuses TypeError
  else NoAttribute.

(** Tables that have every name but "nobody". *)
Definition sample_unknown (name : string) : option exn :=
  if String.eqb name "nobody" then Some IndexError else None.

Definition sample_sim : SimObj :=
  Sim (SimEnv (Patient "adult#001" 1%positive) (Sensor "Dexcom" 1) (Pump "Insulet")
              (Scenario (Datetime 0 0) 1%positive))
      BBController_new 86400 false.

(** One meal in the scenario at location 1. *)
Definition sample_state : state :=
  State {[ 1%positive := [(VStr "breakfast", VInt 40)] ]}
        {[ 1%positive := sample_params "adult#001" ]} [].

(** Two meals in the scenario at location 1. *)
Definition two_meal_state : state :=
  State {[ 1%positive := [(VStr "breakfast", VInt 40); (VStr "lunch", VInt 50)] ]}
        {[ 1%positive := sample_params "adult#001" ]} [].

(** Two environments, each with its own record and scenario. *)
Definition second_sim : SimObj := copy_at sample_sim 2%positive 2%positive.

Definition two_env_state : state :=
  State {[ 1%positive := [(VStr "breakfast", VInt 40)];
           2%positive := [(VStr "breakfast", VInt 45)] ]}
        {[ 1%positive := sample_params "adult#001";
           2%positive := {[ "BW" := VFloat (float_of_Z 70) ]} ]} [].

Definition sample_settings : DeafultSimulationEnv :=
  Default "adult#001" "Dexcom" "Insulet" 1%positive 24.

(** * Lemmas *)

(** ** The source at work on the sample data *)

Example contains_meal_1 : contains "meal" "meal_1" = true.
Proof. reflexivity. Qed.

Example contains_BW : contains "meal" "BW" = false.
Proof. reflexivity. Qed.

Example contains_is_case_sensitive : contains "meal" "Meal_1" = false.
Proof. reflexivity. Qed.

Example separate_BW_meal_1 :
  (_separate_parameters ["BW"; "meal_1"] [float_of_Z 70; float_of_Z 60] sample_state).2
  = Ok ([1], [float_of_Z 60], ["BW"], [float_of_Z 70]).
Proof. reflexivity. Qed.

Example separate_short_row :
  _separate_parameters ["BW"; "meal_1"] [float_of_Z 70] sample_state
  = (sample_state, Raise IndexError).
Proof. reflexivity. Qed.

(** Two workers finishing in either order: the event logs differ, the
    tensors do not. *)
Example pool_completion_order :
  let first := simulate_batch sample_cgm [0; 0] [sample_sim; second_sim]
                 cpu false two_env_state in
  let second := simulate_batch sample_cgm [1; 0] [sample_sim; second_sim]
                  cpu false two_env_state in
  first.2 = second.2 ∧ trace first.1 ≠ trace second.1.
Proof. split; [reflexivity|]. intros H. vm_compute in H. discriminate H. Qed.

(** ** The monad *)

Lemma bind_ok {A B} (m : M A) (k : A → M B) s s' a :
  m s = (s', Ok a) → bind m k s = k a s'.
Proof. unfold bind. intros ->. reflexivity. Qed.

Lemma bind_raise {A B} (m : M A) (k : A → M B) s s' e :
  m s = (s', Raise e) → bind m k s = (s', Raise e).
Proof. unfold bind. intros ->. reflexivity. Qed.

Lemma comprehension_ext {A B} (f g : A → M B) (l : list A) s :
  (∀ x s, x ∈ l → f x s = g x s) → comprehension f l s = comprehension g l s.
Proof.
  revert s. induction l as [|x l IH]; intros s Hfg; [reflexivity|].
  simpl. unfold bind at 1 3. rewrite Hfg by left.
  destruct (g x s) as [s1 [y|e]]; [|reflexivity].
  unfold bind. rewrite IH; [reflexivity|].
  intros x' s' Hx'. apply Hfg. by right.
Qed.

Lemma comprehension_getitem {A B} (l : list A) (p : B → nat) (xs : list B) s :
  comprehension (λ x, getitem l (p x)) xs s
  = (s, match mapM (λ x, l !! p x) xs with
        | Some vs => Ok vs
        | None => Raise IndexError
        end).
Proof.
  induction xs as [|x xs IH]; [reflexivity|].
  simpl. unfold bind at 1, getitem at 1.
  destruct (l !! p x) as [y|] eqn:Hy; simpl; [|reflexivity].
  unfold bind, ret, raise. rewrite IH.
  by destruct (mapM _ xs).
Qed.

(** ** [_separate_parameters] *)

Lemma enumerate_lookup {A} (l : list A) i x :
  (i, x) ∈ enumerate l ↔ l !! i = Some x.
Proof.
  unfold enumerate. rewrite elem_of_lookup_imap. split.
  - intros (j & y & [= -> ->] & H). done.
  - intros H. eauto.
Qed.

Lemma meal_indices_of_spec names i :
  i ∈ meal_indices_of names ↔ ∃ n, names !! i = Some n ∧ contains "meal" n = true.
Proof.
  unfold meal_indices_of. rewrite list_elem_of_fmap. split.
  - intros ([j n] & -> & Hin). apply list_elem_of_In, filter_In in Hin as [Hin Hc].
    apply list_elem_of_In, enumerate_lookup in Hin. eauto.
  - intros (n & Hn & Hc). exists (i, n). split; [done|].
    apply list_elem_of_In, filter_In. split; [|done].
    by apply list_elem_of_In, enumerate_lookup.
Qed.

Lemma non_meal_of_spec names i n :
  (i, n) ∈ non_meal_of names ↔ names !! i = Some n ∧ contains "meal" n = false.
Proof.
  unfold non_meal_of. rewrite list_elem_of_In, filter_In, <- list_elem_of_In.
  rewrite enumerate_lookup. simpl. by rewrite negb_true_iff.
Qed.

Lemma meal_values_of_is_Some names theta :
  length names ≤ length theta → is_Some (meal_values_of names theta).
Proof.
  intros Hlen. apply mapM_is_Some, Forall_forall. intros i Hi.
  apply meal_indices_of_spec in Hi as (n & Hn & _).
  apply lookup_lt_is_Some. apply lookup_lt_Some in Hn. lia.
Qed.

Lemma other_values_of_is_Some names theta :
  length names ≤ length theta → is_Some (other_values_of names theta).
Proof.
  intros Hlen. apply mapM_is_Some, Forall_forall. intros [i n] Hi.
  apply non_meal_of_spec in Hi as [Hn _]. simpl.
  apply lookup_lt_is_Some. apply lookup_lt_Some in Hn. lia.
Qed.

Lemma values_of_short names theta :
  length theta < length names →
  meal_values_of names theta = None ∨ other_values_of names theta = None.
Proof.
  intros Hlen.
  destruct (lookup_lt_is_Some_2 names (length theta) Hlen) as [n Hn].
  destruct (contains "meal" n) eqn:Hc.
  - left. apply eq_None_not_Some. intros Hs%mapM_is_Some.
    rewrite Forall_forall in Hs.
    destruct (Hs (length theta)) as [v Hv].
    + apply meal_indices_of_spec. eauto.
    + apply lookup_lt_Some in Hv. lia.
  - right. apply eq_None_not_Some. intros Hs%mapM_is_Some.
    rewrite Forall_forall in Hs.
    destruct (Hs (length theta, n)) as [v Hv].
    + by apply non_meal_of_spec.
    + apply lookup_lt_Some in Hv. simpl in Hv. lia.
Qed.

Lemma _separate_parameters_eq names theta s :
  _separate_parameters names theta s
  = (s, match meal_values_of names theta, other_values_of names theta with
        | Some mv, Some ov =>
            Ok (meal_indices_of names, mv, (non_meal_of names).*2, ov)
        | _, _ => Raise IndexError
        end).
Proof.
  unfold _separate_parameters, meal_values_of, other_values_of.
  fold (meal_indices_of names). fold (non_meal_of names).
  unfold bind at 1.
  rewrite (comprehension_getitem theta (λ i : nat, i)).
  destruct (mapM _ (meal_indices_of names)) as [mv|]; [|reflexivity].
  unfold bind. rewrite (comprehension_getitem theta (λ ip : nat * string, ip.1)).
  by destruct (mapM _ (non_meal_of names)).
Qed.

(** ** The two update loops *)

Lemma state_eta s : State (lists s) (series s) (trace s) = s.
Proof. by destruct s. Qed.

Lemma meal_patch_nil_r sc : meal_patch sc [] = sc.
Proof. by destruct sc as [|[??]?]. Qed.

Lemma meal_patch_length sc mv : length (meal_patch sc mv) = length sc.
Proof.
  revert mv. induction sc as [|[n a] sc IH]; intros [|v mv]; simpl; auto.
Qed.

Lemma lookup_total_Some_list (m : gmap loc (list meal)) l i x :
  (m !!! l) !! i = Some x → m !! l = Some (m !!! l).
Proof.
  rewrite lookup_total_alt. destruct (m !! l); simpl; [done|].
  intros H. by rewrite lookup_nil in H.
Qed.

Lemma _update_meal_parameters_from_eq l mv steps i s :
  length (lists s !!! l) ≤ i + steps →
  _update_meal_parameters_from steps i l mv s
  = (State (alter (λ sc, take i sc ++ meal_patch (drop i sc) (drop i mv)) l (lists s))
           (series s) (trace s),
     if decide (length (lists s !!! l) - i ≤ length mv - i) then Ok tt
     else Raise IndexError).
Proof.
  revert i s. induction steps as [|k IH]; intros i s Hlen.
  - simpl. unfold ret.
    destruct (decide (length (lists s !!! l) - i ≤ length mv - i)); [|lia]. f_equal.
    rewrite alter_id; [by rewrite state_eta|].
    intros sc Hsc. rewrite lookup_total_alt, Hsc in Hlen. simpl in Hlen.
    rewrite take_ge, drop_ge by lia. simpl. by rewrite app_nil_r.
  - simpl. unfold bind at 1, list_read at 1.
    destruct ((lists s !!! l) !! i) as [[n a]|] eqn:Hi.
    + pose proof (lookup_total_Some_list _ _ _ _ Hi) as Hl.
      pose proof (lookup_lt_Some _ _ _ Hi) as Hlt.
      unfold bind at 1, getitem at 1.
      destruct (mv !! i) as [v|] eqn:Hv.
      * pose proof (lookup_lt_Some _ _ _ Hv) as Hltv.
        unfold ret at 1.
        erewrite bind_ok.
        2:{ unfold list_setitem. cbv zeta. destruct (decide _); [reflexivity|lia]. }
        rewrite IH.
        2:{ simpl. rewrite lookup_total_insert_eq, length_insert. lia. }
        simpl. rewrite lookup_total_insert_eq, length_insert.
        f_equal.
        -- f_equal. apply map_eq. intros l'.
           rewrite !lookup_alter. destruct (decide (l = l')) as [<-|Hne].
           ++ rewrite lookup_insert_eq, Hl. simpl. f_equal.
              rewrite (drop_S _ _ _ Hi), (drop_S _ _ _ Hv). simpl.
              rewrite drop_insert_lt by lia.
              rewrite (take_S_r _ _ (n, VFloat v)).
              2:{ apply list_lookup_insert_eq. done. }
              rewrite take_insert_ge by lia.
              by rewrite <- app_assoc.
           ++ by rewrite lookup_insert_ne.
        -- destruct (decide (length (lists s !!! l) - S i ≤ length mv - S i));
           destruct (decide (length (lists s !!! l) - i ≤ length mv - i)); (done || lia).
      * unfold raise. apply lookup_ge_None in Hv.
        destruct (decide (length (lists s !!! l) - i ≤ length mv - i)); [lia|]. f_equal.
        rewrite alter_id; [by rewrite state_eta|].
        intros sc Hsc. rewrite (drop_ge mv) by lia. rewrite meal_patch_nil_r.
        by rewrite take_drop.
    + unfold ret. apply lookup_ge_None in Hi.
      destruct (decide (length (lists s !!! l) - i ≤ length mv - i)); [|lia]. f_equal.
      rewrite alter_id; [by rewrite state_eta|].
      intros sc Hsc. rewrite lookup_total_alt, Hsc in Hi. simpl in Hi.
      rewrite take_ge, drop_ge by lia. simpl. by rewrite app_nil_r.
Qed.

Lemma _update_meal_parameters_eq l mv s :
  _update_meal_parameters l mv s
  = (State (alter (λ sc, meal_patch sc mv) l (lists s)) (series s) (trace s),
     if decide (length (lists s !!! l) ≤ length mv) then Ok tt else Raise IndexError).
Proof.
  unfold _update_meal_parameters, bind, list_read.
  rewrite _update_meal_parameters_from_eq by lia.
  rewrite !Nat.sub_0_r. reflexivity.
Qed.

Lemma set_attrs_upto_not_writes rec pvs :
  writes pvs = false → (set_attrs_upto rec pvs).1 = rec.
Proof.
  destruct pvs as [|pv pvs]; [done|]. simpl. intros Hw%bool_decide_eq_false.
  by destruct (refusal (Series_attr pv.1)).
Qed.

Lemma set_attrs_upto_accepted rec pvs :
  Forall (λ pv, refusal (Series_attr pv.1) = None) pvs →
  set_attrs_upto rec pvs = (set_attrs rec pvs, Ok tt).
Proof.
  revert rec. induction pvs as [|pv pvs IH]; intros rec Hall; [done|].
  apply Forall_cons in Hall as [Hpv Hall]. simpl. rewrite Hpv. by rewrite IH.
Qed.

Lemma set_attrs_upto_ok rec pvs :
  (set_attrs_upto rec pvs).2 = Ok tt →
  Forall (λ pv, refusal (Series_attr pv.1) = None) pvs.
Proof.
  revert rec. induction pvs as [|pv pvs IH]; intros rec; [by constructor|].
  simpl. destruct (refusal (Series_attr pv.1)) eqn:Hr; [done|].
  intros Hok. constructor; [done|]. by eapply IH.
Qed.

Lemma set_attrs_upto_outcome rec rec' pvs :
  (set_attrs_upto rec pvs).2 = (set_attrs_upto rec' pvs).2.
Proof.
  revert rec rec'. induction pvs as [|pv pvs IH]; intros rec rec'; [done|].
  simpl. destruct (refusal (Series_attr pv.1)); [done|]. apply IH.
Qed.

Lemma refusal_Some a e : refusal a = Some e ↔ a = Refuses e.
Proof. destruct a; simpl; split; congruence. Qed.

Lemma set_attrs_upto_raise rec pvs e :
  (set_attrs_upto rec pvs).2 = Raise e → ∃ k, k ∈ pvs.*1 ∧ Series_attr k = Refuses e.
Proof.
  revert rec. induction pvs as [|pv pvs IH]; intros rec; [done|].
  simpl. destruct (refusal (Series_attr pv.1)) as [e'|] eqn:Hr.
  - intros [= <-]. exists pv.1. split; [left|]. by apply refusal_Some.
  - intros (k & Hk & He)%IH. exists k. split; [by right|done].
Qed.

(** The loop stops at the first refused name, with the names before it
    bound and none after it. *)
Lemma set_attrs_upto_stops rec pre k v post e :
  Forall (λ pv, refusal (Series_attr pv.1) = None) pre →
  Series_attr k = Refuses e →
  set_attrs_upto rec (pre ++ (k, v) :: post) = (set_attrs rec pre, Raise e).
Proof.
  revert rec. induction pre as [|pv pre IH]; intros rec Hall Hk.
  - simpl. by rewrite Hk.
  - apply Forall_cons in Hall as [Hpv Hall]. simpl. rewrite Hpv. by apply IH.
Qed.

Lemma _update_patient_parameters_eq p ps vs s :
  _update_patient_parameters p ps vs s
  = (if writes (zip ps vs)
     then State (lists s)
            (<[_params p := (set_attrs_upto (series s !!! _params p) (zip ps vs)).1]>
               (series s))
            (trace s)
     else s,
     (set_attrs_upto (series s !!! _params p) (zip ps vs)).2).
Proof.
  unfold _update_patient_parameters.
  generalize (zip ps vs) as pvs. intros pvs. revert s.
  induction pvs as [|pv pvs IH]; intros s; [reflexivity|].
  cbn [for_each writes set_attrs_upto]. unfold setattr.
  destruct (refusal (Series_attr pv.1)) as [e|] eqn:Hr.
  - by rewrite bool_decide_eq_false_2.
  - rewrite bool_decide_eq_true_2 by done. unfold bind. rewrite IH.
    cbn [lists series trace]. rewrite lookup_total_insert_eq.
    destruct (writes pvs) eqn:Hw.
    + by rewrite insert_insert_eq.
    + by rewrite set_attrs_upto_not_writes.
Qed.

Lemma set_custom_params_eq o theta ip infer s :
  set_custom_params o theta ip infer s
  = match meal_values_of (params_names ip) theta,
          other_values_of (params_names ip) theta with
    | Some mv, Some ov =>
        if patches_meals infer (params_names ip) then
          let s1 := State (alter (λ sc, meal_patch sc mv) (sloc o) (lists s))
                          (series s) (trace s) in
          if decide (length (lists s !!! sloc o) ≤ length mv)
          then _update_patient_parameters (patient (env o))
                 (non_meal_of (params_names ip)).*2 ov s1
          else (s1, Raise IndexError)
        else _update_patient_parameters (patient (env o))
               (non_meal_of (params_names ip)).*2 ov s
    | _, _ => (s, Raise IndexError)
    end.
Proof.
  unfold set_custom_params. unfold bind at 1. rewrite _separate_parameters_eq.
  destruct (meal_values_of _ theta) as [mv|]; [|reflexivity].
  destruct (other_values_of _ theta) as [ov|]; [|reflexivity].
  fold (patches_meals infer (params_names ip)).
  destruct (patches_meals infer (params_names ip)).
  - unfold bind. rewrite _update_meal_parameters_eq. fold (sloc o). cbv zeta.
    by destruct (decide _).
  - reflexivity.
Qed.

Lemma alter_meal_patch_total (m : gmap loc (list meal)) l mv :
  alter (λ sc, meal_patch sc mv) l m !!! l = meal_patch (m !!! l) mv.
Proof.
  rewrite !lookup_total_alt, lookup_alter, decide_True by done.
  by destruct (m !! l).
Qed.

Ltac patch_cases ip theta infer :=
  rewrite set_custom_params_eq;
  destruct (meal_values_of (params_names ip) theta) as [?mv|];
  [destruct (other_values_of (params_names ip) theta) as [?ov|];
   [destruct (patches_meals infer (params_names ip));
    [destruct (decide _)|];
    rewrite ?_update_patient_parameters_eq; simpl;
    try destruct (writes _) eqn:?Hw; simpl|]|].

Lemma set_custom_params_trace o theta ip infer s :
  trace (set_custom_params o theta ip infer s).1 = trace s.
Proof.
  patch_cases ip theta infer; done.
Qed.

Lemma set_custom_params_lists_frame o theta ip infer s l :
  l ≠ sloc o → lists (set_custom_params o theta ip infer s).1 !! l = lists s !! l.
Proof.
  intros Hl. patch_cases ip theta infer; rewrite ?lookup_alter_ne; done.
Qed.

Lemma set_custom_params_series_frame o theta ip infer s l :
  l ≠ ploc o → series (set_custom_params o theta ip infer s).1 !! l = series s !! l.
Proof.
  intros Hl. unfold ploc in Hl.
  patch_cases ip theta infer; rewrite ?lookup_insert_ne; done.
Qed.

Lemma set_custom_params_dom_lists o theta ip infer s :
  dom (lists (set_custom_params o theta ip infer s).1) = dom (lists s).
Proof.
  patch_cases ip theta infer; rewrite ?dom_alter_L; done.
Qed.

Lemma set_custom_params_dom_series o theta ip infer s :
  dom (series s) ⊆ dom (series (set_custom_params o theta ip infer s).1).
Proof.
  patch_cases ip theta infer; rewrite ?dom_insert_L; set_solver.
Qed.

Lemma set_custom_params_local o theta ip infer s :
  (lists (set_custom_params o theta ip infer s).1 !!! sloc o,
   series (set_custom_params o theta ip infer s).1 !!! ploc o,
   (set_custom_params o theta ip infer s).2)
  = patch_result (params_names ip) theta infer
      (lists s !!! sloc o) (series s !!! ploc o).
Proof.
  unfold patch_result, ploc.
  patch_cases ip theta infer;
    rewrite ?alter_meal_patch_total, ?lookup_total_insert_eq,
      ?set_attrs_upto_not_writes by done; try done.
Qed.

(** ** Deep copies and the frame of the factory *)

Global Instance extends_refl : Reflexive extends.
Proof. intros s. by repeat split. Qed.

Global Instance extends_trans : Transitive extends.
Proof.
  intros s1 s2 s3 (Hl12 & Hs12 & Ht12) (Hl23 & Hs23 & Ht23).
  split; [|split].
  - intros l Hl. rewrite Hl23, Hl12; [done..|].
    apply elem_of_dom. rewrite Hl12 by done. by apply elem_of_dom.
  - intros l Hl. rewrite Hs23, Hs12; [done..|].
    apply elem_of_dom. rewrite Hs12 by done. by apply elem_of_dom.
  - congruence.
Qed.

Lemma extends_dom_lists s s' l : extends s s' → l ∈ dom (lists s) → l ∈ dom (lists s').
Proof.
  intros (Hl & _) Hin. apply elem_of_dom. rewrite Hl by done. by apply elem_of_dom.
Qed.

Lemma extends_dom_series s s' l :
  extends s s' → l ∈ dom (series s) → l ∈ dom (series s').
Proof.
  intros (_ & Hs & _) Hin. apply elem_of_dom. rewrite Hs by done. by apply elem_of_dom.
Qed.

(** An object that is live in [s] looks the same in every extension. *)
Lemma extends_snapshot s s' o :
  extends s s' → ploc o ∈ dom (series s) → sloc o ∈ dom (lists s) →
  snapshot_of s' o = snapshot_of s o.
Proof.
  intros (Hl & Hs & _) Hp Hsc. unfold snapshot_of.
  fold (ploc o). fold (sloc o).
  rewrite !lookup_total_alt, Hl, Hs by done. reflexivity.
Qed.

Lemma deepcopy_eq pp o s :
  deepcopy pp o s
  = (State (<[fresh (dom (lists s)) := lists s !!! sloc o]> (lists s))
           (<[fresh (dom (series s)) :=
                filter (λ kv : string * pyval,
                          kv.1 ∈ Series_index pp (pat_name (patient (env o))))
                  (series s !!! ploc o)]> (series s))
           (trace s),
     Ok (copy_at o (fresh (dom (series s))) (fresh (dom (lists s))))).
Proof. reflexivity. Qed.

(** A record that has nothing outside its index is copied whole. *)
Lemma filter_within_index pp s o :
  within_index pp s o →
  filter (λ kv : string * pyval, kv.1 ∈ Series_index pp (pat_name (patient (env o))))
    (series s !!! ploc o)
  = series s !!! ploc o.
Proof.
  intros Hin. apply map_filter_id. intros k v Hkv. simpl.
  apply Hin. by eapply elem_of_dom_2.
Qed.

Lemma deepcopy_extends pp o s : extends s (deepcopy pp o s).1.
Proof.
  rewrite deepcopy_eq. unfold extends. simpl. split; [|split]; [| |done].
  - intros l Hl. rewrite lookup_insert_ne; [done|].
    intros <-. by apply is_fresh in Hl.
  - intros l Hl. rewrite lookup_insert_ne; [done|].
    intros <-. by apply is_fresh in Hl.
Qed.

Lemma deepcopy_snapshot pp o s c s' :
  within_index pp s o →
  deepcopy pp o s = (s', Ok c) → snapshot_of s' c = snapshot_of s o.
Proof.
  intros Hin. rewrite deepcopy_eq, filter_within_index by done.
  intros [= <- <-]. unfold snapshot_of. simpl.
  by rewrite !lookup_total_insert_eq.
Qed.

Lemma set_custom_params_extends_outside o theta ip infer s s0 :
  extends s0 s → sloc o ∉ dom (lists s0) → ploc o ∉ dom (series s0) →
  extends s0 (set_custom_params o theta ip infer s).1.
Proof.
  intros (Hl & Hs & Ht) Hsl Hpl. split; [|split].
  - intros l Hin. rewrite set_custom_params_lists_frame; [by apply Hl|].
    intros ->. done.
  - intros l Hin. rewrite set_custom_params_series_frame; [by apply Hs|].
    intros ->. done.
  - by rewrite set_custom_params_trace.
Qed.

(** One turn of the loop: the copy sits at two fresh locations, and the
    turn ends as the patch of the copy ends. *)
Lemma custom_sim_env_for_eq pp d ip infer row s :
  let c := copy_at d (fresh (dom (series s))) (fresh (dom (lists s))) in
  let s2 := (set_custom_params c row ip infer (deepcopy pp d s).1).1 in
  custom_sim_env_for pp d ip infer row s
  = (s2, match (set_custom_params c row ip infer (deepcopy pp d s).1).2 with
         | Ok _ => Ok c
         | Raise e => Raise e
         end)
  ∧ extends s s2
  ∧ sloc c ∈ dom (lists s2) ∧ ploc c ∈ dom (series s2).
Proof.
  intros c s2.
  split; [|split; [|split]].
  - unfold custom_sim_env_for. unfold bind at 1. rewrite deepcopy_eq. fold c.
    unfold bind, ret. subst s2. rewrite deepcopy_eq. simpl.
    by destruct (set_custom_params c row ip infer _) as [s3 [[]|e]].
  - subst s2. apply set_custom_params_extends_outside.
    + apply deepcopy_extends.
    + simpl. apply is_fresh.
    + simpl. apply is_fresh.
  - subst s2. rewrite set_custom_params_dom_lists, deepcopy_eq. simpl.
    rewrite dom_insert_L. set_solver.
  - subst s2. apply (set_custom_params_dom_series c row ip infer).
    rewrite deepcopy_eq. simpl. rewrite dom_insert_L. set_solver.
Qed.

(** When the default has nothing outside its index, the copy holds what
    the patch makes of the content of [d]. *)
Lemma custom_sim_env_for_patch pp d ip infer row s :
  within_index pp s d →
  let c := copy_at d (fresh (dom (series s))) (fresh (dom (lists s))) in
  let r := set_custom_params c row ip infer (deepcopy pp d s).1 in
  r.2 = (patch_result (params_names ip) row infer
           (lists s !!! sloc d) (series s !!! ploc d)).2
  ∧ snapshot_of r.1 c = patch_snapshot (params_names ip) row infer (snapshot_of s d).
Proof.
  intros Hin c r.
  pose proof (set_custom_params_local c row ip infer (deepcopy pp d s).1) as Hloc.
  fold r in Hloc.
  assert (lists (deepcopy pp d s).1 !!! sloc c = lists s !!! sloc d) as Hsc.
  { rewrite deepcopy_eq. simpl. by rewrite lookup_total_insert_eq. }
  assert (series (deepcopy pp d s).1 !!! ploc c = series s !!! ploc d) as Hpc.
  { rewrite deepcopy_eq, filter_within_index by done. simpl.
    by rewrite lookup_total_insert_eq. }
  rewrite Hsc, Hpc in Hloc. split.
  - by rewrite <- Hloc.
  - unfold patch_snapshot. cbv zeta.
    change (snap_scenario (snapshot_of s d)) with (lists s !!! sloc d).
    change (snap_params (snapshot_of s d)) with (series s !!! ploc d).
    rewrite <- Hloc. reflexivity.
Qed.

Lemma comprehension_custom_extends pp d ip infer theta s :
  extends s (comprehension (custom_sim_env_for pp d ip infer) theta s).1.
Proof.
  revert s. induction theta as [|row theta IH]; intros s; [done|].
  simpl. unfold bind at 1.
  destruct (custom_sim_env_for_eq pp d ip infer row s) as (Heq & Hext & _).
  rewrite Heq.
  destruct (set_custom_params _ row ip infer (deepcopy pp d s).1).2; [|done].
  unfold bind at 1.
  specialize (IH (set_custom_params
    (copy_at d (fresh (dom (series s))) (fresh (dom (lists s)))) row ip infer
    (deepcopy pp d s).1).1).
  destruct (comprehension _ theta _) as [s3 [envs|e]]; simpl in *;
    by etrans.
Qed.

Lemma within_index_extends pp s s' o :
  extends s s' → ploc o ∈ dom (series s) → within_index pp s o → within_index pp s' o.
Proof.
  intros (_ & Hs & _) Hp Hin. unfold within_index in *.
  by rewrite lookup_total_alt, Hs, <- lookup_total_alt.
Qed.

(** ** How [set_custom_params] ends *)

Lemma meal_values_of_length names theta mv :
  meal_values_of names theta = Some mv → length mv = length (meal_indices_of names).
Proof. intros H. symmetry. by eapply length_mapM. Qed.

Lemma non_meal_assignable names (ov : list float) :
  Forall assignable names →
  Forall (λ pv, refusal (Series_attr pv.1) = None) (zip (non_meal_of names).*2 ov).
Proof.
  intros Hall. apply Forall_forall. intros [k v] Hin. simpl.
  apply elem_of_zip_l, list_elem_of_fmap in Hin as ([i k'] & -> & Hin).
  apply non_meal_of_spec in Hin as [Hi Hc]. simpl.
  rewrite Forall_forall in Hall.
  destruct (Hall k') as [Hm|Hr]; [by eapply list_elem_of_lookup_2|congruence|done].
Qed.

(** On a row that covers the names, none of which the class refuses, the
    one error left is the scenario outrunning the meal values. *)
Lemma patch_result_outcome names theta infer sc rec :
  length names ≤ length theta →
  Forall assignable names →
  (patch_result names theta infer sc rec).2
  = if patches_meals infer names && (length (meal_indices_of names) <? length sc)
    then Raise IndexError else Ok tt.
Proof.
  intros Hlen Hall. unfold patch_result.
  destruct (meal_values_of_is_Some names theta Hlen) as [mv Hmv].
  destruct (other_values_of_is_Some names theta Hlen) as [ov Hov].
  rewrite Hmv, Hov. apply meal_values_of_length in Hmv.
  rewrite (set_attrs_upto_accepted rec) by by apply non_meal_assignable.
  destruct (patches_meals infer names); simpl; [|done].
  destruct (decide _) as [Hd|Hd]; simpl;
    destruct (Nat.ltb_spec (length (meal_indices_of names)) (length sc)); (done || lia).
Qed.

(** The record the patch leaves when it ends normally. *)
Lemma patch_result_ok_record names theta infer sc rec ov :
  other_values_of names theta = Some ov →
  (patch_result names theta infer sc rec).2 = Ok tt →
  (patch_result names theta infer sc rec).1.2
  = set_attrs rec (zip (non_meal_of names).*2 ov).
Proof.
  intros Hov. unfold patch_result. rewrite Hov.
  destruct (meal_values_of names theta) as [mv|]; [|done]. cbv zeta.
  destruct (patches_meals infer names); [destruct (decide _)|]; simpl; try done.
  all: intros Hok%set_attrs_upto_ok;
    by rewrite (set_attrs_upto_accepted rec) by done.
Qed.

Lemma patch_result_short names theta infer sc rec :
  length theta < length names →
  patch_result names theta infer sc rec = (sc, rec, Raise IndexError).
Proof.
  intros Hlen. unfold patch_result.
  destruct (values_of_short names theta Hlen) as [-> | ->]; [done|].
  by destruct (meal_values_of names theta).
Qed.

(** ** The loop of the factory *)

Lemma load_default_simulation_env_eq pp settings hours now s :
  load_error settings hours = None →
  load_default_simulation_env pp settings hours now s
  = (State (lists s) (<[fresh (dom (series s)) := pp (patient_name settings)]> (series s))
           (trace s),
     Ok (Sim (SimEnv (Patient (patient_name settings) (fresh (dom (series s))))
                     (Sensor (sensor_name settings) 1) (Pump (pump_name settings))
                     (Scenario (Datetime (dt_date now) 0) (scenario settings)))
             BBController_new (hours * 3600) false)).
Proof.
  unfold load_error, load_default_simulation_env, T1DPatient_withName,
    CGMSensor_withName, InsulinPump_withName, timedelta_hours.
  destruct (unknown_patient _); [done|]. destruct (unknown_sensor _); [done|].
  destruct (unknown_pump _); [done|]. by destruct (_ <=? _)%Z.
Qed.

(** A build that fails has logged nothing and touched no object that was
    there. *)
Lemma load_default_simulation_env_raise pp settings hours now s e :
  load_error settings hours = Some e →
  (load_default_simulation_env pp settings hours now s).2 = Raise e
  ∧ extends s (load_default_simulation_env pp settings hours now s).1.
Proof.
  unfold load_error, load_default_simulation_env, T1DPatient_withName,
    CGMSensor_withName, InsulinPump_withName, timedelta_hours.
  assert (extends s (State (lists s)
            (<[fresh (dom (series s)) := pp (patient_name settings)]> (series s))
            (trace s))) as Hext.
  { unfold extends. simpl. split; [done|split; [|done]].
    intros l Hl. rewrite lookup_insert_ne; [done|].
    intros <-. by apply is_fresh in Hl. }
  destruct (unknown_patient _); [by intros [= <-]|].
  destruct (unknown_sensor _); [by intros [= <-]|].
  destruct (unknown_pump _); [by intros [= <-]|].
  destruct (_ <=? _)%Z; [done|]. by intros [= <-].
Qed.

Lemma load_default_simulation_env_spec pp settings hours now s s1 d :
  load_default_simulation_env pp settings hours now s = (s1, Ok d) →
  load_error settings hours = None
  ∧ extends s s1 ∧ lists s1 = lists s
  ∧ ploc d ∈ dom (series s1) ∧ sloc d = scenario settings
  ∧ snapshot_of s1 d
    = Snapshot (patient_name settings) (pp (patient_name settings))
        (Sensor (sensor_name settings) 1) (Pump (pump_name settings))
        (Datetime (dt_date now) 0) (lists s !!! scenario settings)
        BBController_new (hours * 3600) false
  ∧ within_index pp s1 d.
Proof.
  destruct (load_error settings hours) as [e|] eqn:Herr.
  { destruct (load_default_simulation_env_raise pp settings hours now s e Herr)
      as [Hr _].
    intros Hload. by rewrite Hload in Hr. }
  rewrite load_default_simulation_env_eq by done. intros [= <- <-].
  split; [done|]. split; [|split; [done|split; [|split; [done|split]]]].
  - unfold extends. simpl. split; [done|split; [|done]].
    intros l Hl. rewrite lookup_insert_ne; [done|].
    intros <-. by apply is_fresh in Hl.
  - unfold ploc. simpl. rewrite dom_insert_L. set_solver.
  - unfold snapshot_of. simpl. by rewrite lookup_total_insert_eq.
  - unfold within_index, ploc. simpl. by rewrite lookup_total_insert_eq.
Qed.

(** Whether a build returns does not depend on the store. *)
Lemma load_default_simulation_env_returns pp settings hours now s :
  load_error settings hours = None ↔
  ∃ s1 d, load_default_simulation_env pp settings hours now s = (s1, Ok d).
Proof.
  split.
  - intros Herr. eexists _, _. by apply load_default_simulation_env_eq.
  - intros (s1 & d & Hload).
    by destruct (load_default_simulation_env_spec _ _ _ _ _ _ _ Hload).
Qed.

Lemma comprehension_custom_rows pp d ip infer s1 theta s :
  ploc d ∈ dom (series s1) → sloc d ∈ dom (lists s1) → within_index pp s1 d →
  extends s1 s →
  Forall (λ row, (patch_result (params_names ip) row infer
                    (lists s1 !!! sloc d) (series s1 !!! ploc d)).2 = Ok tt) theta →
  ∃ s' envs,
    comprehension (custom_sim_env_for pp d ip infer) theta s = (s', Ok envs)
    ∧ extends s s'
    ∧ length envs = length theta
    ∧ ∀ i row e, theta !! i = Some row → envs !! i = Some e →
        snapshot_of s' e
        = patch_snapshot (params_names ip) row infer (snapshot_of s1 d).
Proof.
  intros Hp Hs Hin. revert s. induction theta as [|row theta IH]; intros s Hext Hok.
  - exists s, []. repeat split; [done..|]. intros i row e Hi. by rewrite lookup_nil in Hi.
  - apply Forall_cons in Hok as [Hrow Hok].
    destruct (custom_sim_env_for_eq pp d ip infer row s) as (Heq & Hext2 & Hcs & Hcp).
    destruct (custom_sim_env_for_patch pp d ip infer row s) as (Hout & Hsnap).
    { by eapply within_index_extends. }
    pose proof (extends_snapshot _ _ d Hext Hp Hs) as Hd.
    assert (lists s !!! sloc d = lists s1 !!! sloc d) as Hsc.
    { by apply (f_equal snap_scenario) in Hd. }
    assert (series s !!! ploc d = series s1 !!! ploc d) as Hpc.
    { by apply (f_equal snap_params) in Hd. }
    cbv zeta in Hout, Hsnap. rewrite Hsc, Hpc, Hrow in Hout. rewrite Hout in Heq.
    set (c := copy_at d (fresh (dom (series s))) (fresh (dom (lists s)))) in *.
    set (s2 := (set_custom_params c row ip infer (deepcopy pp d s).1).1) in *.
    destruct (IH s2) as (s' & envs & Hrun & Hext3 & Hlen & Hall); [by etrans|done|].
    exists s', (c :: envs). split; [|split; [|split]].
    + simpl. erewrite bind_ok by exact Heq. erewrite bind_ok by exact Hrun. done.
    + by etrans.
    + simpl. by rewrite Hlen.
    + intros [|i] row' e Hi He; simpl in *.
      * injection Hi as <-. injection He as <-.
        rewrite (extends_snapshot s2 s' c Hext3 Hcp Hcs), Hsnap. by rewrite Hd.
      * by eapply Hall.
Qed.

Lemma patched_alone_eq pp d ip infer row s :
  within_index pp s d →
  (patch_result (params_names ip) row infer
     (lists s !!! sloc d) (series s !!! ploc d)).2 = Ok tt →
  patched_alone pp d ip infer row s
  = Some (patch_snapshot (params_names ip) row infer (snapshot_of s d)).
Proof.
  intros Hin Hok. unfold patched_alone.
  destruct (custom_sim_env_for_eq pp d ip infer row s) as (Heq & _).
  destruct (custom_sim_env_for_patch pp d ip infer row s Hin) as (Hout & Hsnap).
  cbv zeta in Hout, Hsnap. rewrite Heq, Hout, Hok. by rewrite Hsnap.
Qed.

(** ** Names with and without "meal" *)

Lemma meal_indices_of_nil names :
  Forall (λ n, contains "meal" n = false) names → meal_indices_of names = [].
Proof.
  intros Hall. destruct (meal_indices_of names) as [|i l] eqn:Heq; [done|].
  assert (i ∈ meal_indices_of names) as Hi by (rewrite Heq; left).
  apply meal_indices_of_spec in Hi as (n & Hn & Hc).
  rewrite Forall_forall in Hall.
  rewrite Hall in Hc; [done|]. by eapply list_elem_of_lookup_2.
Qed.

Lemma non_meal_of_nil names :
  Forall (λ n, contains "meal" n = true) names → non_meal_of names = [].
Proof.
  intros Hall. destruct (non_meal_of names) as [|[i n] l] eqn:Heq; [done|].
  assert ((i, n) ∈ non_meal_of names) as Hi by (rewrite Heq; left).
  apply non_meal_of_spec in Hi as (Hn & Hc).
  rewrite Forall_forall in Hall.
  rewrite Hall in Hc; [done|]. by eapply list_elem_of_lookup_2.
Qed.

Lemma patches_meals_false infer names :
  infer = false ∨ Forall (λ n, contains "meal" n = false) names →
  patches_meals infer names = false.
Proof.
  unfold patches_meals. intros [-> | Hall]; [done|].
  rewrite meal_indices_of_nil by done. rewrite bool_decide_eq_true_2 by done.
  apply andb_false_r.
Qed.

Lemma patches_meals_true infer names :
  patches_meals infer names = true ↔ infer = true ∧ meal_indices_of names ≠ [].
Proof.
  unfold patches_meals. rewrite andb_true_iff, negb_true_iff, bool_decide_eq_false.
  done.
Qed.

Lemma set_custom_params_lists_unchanged o theta ip infer s :
  patches_meals infer (params_names ip) = false →
  lists (set_custom_params o theta ip infer s).1 = lists s.
Proof.
  intros Hpm. rewrite set_custom_params_eq, Hpm.
  destruct (meal_values_of _ theta); [|done].
  destruct (other_values_of _ theta); [|done].
  rewrite _update_patient_parameters_eq. simpl. by destruct (writes _).
Qed.

Lemma set_custom_params_series_unchanged o theta ip infer s :
  non_meal_of (params_names ip) = [] →
  series (set_custom_params o theta ip infer s).1 = series s.
Proof.
  intros Hnm. rewrite set_custom_params_eq, Hnm.
  destruct (meal_values_of _ theta); [|done].
  destruct (other_values_of _ theta); [|done].
  destruct (patches_meals _ _); [destruct (decide _)|];
    rewrite ?_update_patient_parameters_eq; done.
Qed.

Lemma values_of_take names theta :
  meal_values_of names (take (length names) theta) = meal_values_of names theta
  ∧ other_values_of names (take (length names) theta) = other_values_of names theta.
Proof.
  split; apply Forall_mapM_ext, Forall_forall.
  - intros i Hi. apply meal_indices_of_spec in Hi as (n & Hn & _).
    apply lookup_take_lt. by eapply lookup_lt_Some.
  - intros [i n] Hi. apply non_meal_of_spec in Hi as (Hn & _). simpl.
    apply lookup_take_lt. by eapply lookup_lt_Some.
Qed.

Lemma set_custom_params_outcome o theta ip infer s :
  (set_custom_params o theta ip infer s).2
  = (patch_result (params_names ip) theta infer
       (lists s !!! sloc o) (series s !!! ploc o)).2.
Proof. by rewrite <- set_custom_params_local. Qed.

(** The call ends normally when the row covers the names, the class
    refuses none of them and, where meals are patched, the meal values
    cover the scenario. *)
Lemma set_custom_params_ok o theta ip infer s :
  length (params_names ip) ≤ length theta →
  Forall assignable (params_names ip) →
  (infer = true → meal_indices_of (params_names ip) ≠ [] →
   length (lists s !!! sloc o) ≤ length (meal_indices_of (params_names ip))) →
  (set_custom_params o theta ip infer s).2 = Ok tt.
Proof.
  intros Hlen Hall Hsc. rewrite set_custom_params_outcome, patch_result_outcome by done.
  destruct (patches_meals infer (params_names ip)) eqn:Hpm; [|done].
  apply patches_meals_true in Hpm as [Hi Hm]. simpl.
  destruct (Nat.ltb_spec (length (meal_indices_of (params_names ip)))
              (length (lists s !!! sloc o))); [|done].
  specialize (Hsc Hi Hm). lia.
Qed.

(** ** The record after [setattr] *)

Lemma set_attrs_notin rec pvs k :
  k ∉ pvs.*1 → set_attrs rec pvs !! k = rec !! k.
Proof.
  revert rec. induction pvs as [|[k' v'] pvs IH]; intros rec Hk; [done|].
  simpl in *. apply not_elem_of_cons in Hk as [Hne Hk].
  unfold set_attrs in *. simpl. rewrite IH by done. by rewrite lookup_insert_ne.
Qed.

Lemma set_attrs_last rec pre k v post :
  k ∉ post.*1 → set_attrs rec (pre ++ (k, v) :: post) !! k = Some (VFloat v).
Proof.
  intros Hk. unfold set_attrs. rewrite foldl_app. simpl.
  fold (set_attrs (<[k:=VFloat v]> (foldl (λ m pv, <[pv.1:=VFloat pv.2]> m) rec pre)) post).
  rewrite set_attrs_notin by done. apply lookup_insert_eq.
Qed.

Lemma filter_imap_names (P : nat * string → bool) (f : nat → nat) (l : list string) n :
  n ∈ (List.filter P (imap (λ j x, (f j, x)) l)).*2 → n ∈ l.
Proof.
  intros ([j m] & -> & Hin)%list_elem_of_fmap.
  apply list_elem_of_In, filter_In in Hin as [Hin _].
  apply list_elem_of_In, elem_of_lookup_imap in Hin as (j' & y & [= -> ->] & Hy).
  simpl. by eapply list_elem_of_lookup_2.
Qed.

Lemma non_meal_of_split names i name :
  names !! i = Some name → contains "meal" name = false →
  (∀ j, i < j → names !! j ≠ Some name) →
  ∃ pre post, non_meal_of names = pre ++ (i, name) :: post ∧ name ∉ post.*2.
Proof.
  intros Hi Hc Hlast.
  pose proof (take_drop_middle names i name Hi) as Hsplit.
  pose proof (lookup_lt_Some _ _ _ Hi) as Hlt.
  exists (List.filter (λ ip, negb (contains "meal" ip.2)) (enumerate (take i names))),
         (List.filter (λ ip, negb (contains "meal" ip.2))
            (imap (λ j x, (i + S j, x)) (drop (S i) names))).
  split.
  - unfold non_meal_of, enumerate. rewrite <- Hsplit at 1.
    rewrite imap_app, List.filter_app. f_equal.
    rewrite length_take, Nat.min_l by lia. simpl.
    rewrite Nat.add_0_r, Hc. simpl. reflexivity.
  - intros Hin%filter_imap_names.
    apply list_elem_of_lookup in Hin as [j Hj].
    rewrite lookup_drop in Hj. by apply (Hlast (S i + j)); [lia|].
Qed.

Lemma set_custom_params_sets_name names theta rec i name v ov :
  names !! i = Some name → contains "meal" name = false →
  (∀ j, i < j → names !! j ≠ Some name) →
  theta !! i = Some v →
  other_values_of names theta = Some ov →
  set_attrs rec (zip (non_meal_of names).*2 ov) !! name = Some (VFloat v).
Proof.
  intros Hi Hc Hlast Hv Hov.
  destruct (non_meal_of_split names i name Hi Hc Hlast) as (pre & post & Hsplit & Hpost).
  unfold other_values_of in Hov. apply mapM_Some in Hov. rewrite Hsplit in *.
  apply Forall2_app_inv_l in Hov as (ov1 & ov' & Hpre & Hrest & ->).
  apply Forall2_cons_inv_l in Hrest as (v' & ov2 & Hv' & Hpost2 & ->).
  simpl in Hv'. rewrite Hv in Hv'. injection Hv' as <-.
  rewrite fmap_app. simpl.
  rewrite zip_with_app by (rewrite length_fmap; by eapply Forall2_length).
  simpl. apply set_attrs_last.
  rewrite fst_zip; [done|].
  rewrite length_fmap. by erewrite Forall2_length.
Qed.

(** ** The batch runner *)

Section Runner.

Variable cgm_of_run : snapshot → option (list float).

Lemma snapshot_of_same_store s s' o :
  lists s' = lists s → series s' = series s → snapshot_of s' o = snapshot_of s o.
Proof. unfold snapshot_of. by intros -> ->. Qed.

Lemma readings_of_same_store s s' sims :
  lists s' = lists s → series s' = series s →
  readings_of cgm_of_run s' sims = readings_of cgm_of_run s sims.
Proof.
  intros Hl Hs. apply mapM_ext. intros o. by rewrite (snapshot_of_same_store s s').
Qed.

Lemma simulate_glucose_dynamics_eq o s :
  simulate_glucose_dynamics cgm_of_run o s
  = (State (lists s) (series s) (trace s ++ [Simulate o]),
     match cgm_of_run (snapshot_of s o) with
     | Some readings => Ok readings
     | None => Raise SimulationFailure
     end).
Proof.
  unfold simulate_glucose_dynamics, bind, emit.
  change (snapshot_of (State (lists s) (series s) (trace s ++ [Simulate o])) o)
    with (snapshot_of s o).
  by destruct (cgm_of_run (snapshot_of s o)).
Qed.

(** The sequential branch: the readings in list order, or the failure. *)
Lemma comprehension_simulate sims s :
  ∃ s', comprehension (simulate_glucose_dynamics cgm_of_run) sims s
        = (s', match readings_of cgm_of_run s sims with
               | Some rs => Ok rs
               | None => Raise SimulationFailure
               end)
        ∧ lists s' = lists s ∧ series s' = series s.
Proof.
  revert s. induction sims as [|o sims IH]; intros s.
  - by exists s.
  - simpl. unfold bind at 1. rewrite simulate_glucose_dynamics_eq.
    unfold readings_of. simpl.
    destruct (cgm_of_run (snapshot_of s o)) as [r|]; simpl; [|by eexists].
    destruct (IH (State (lists s) (series s) (trace s ++ [Simulate o])))
      as (s' & Heq & Hl & Hs).
    exists s'. split; [|done].
    unfold bind. rewrite Heq.
    rewrite (readings_of_same_store s) by done. unfold readings_of.
    by destruct (mapM _ sims).
Qed.

Lemma pool_dispatch_ok s0 steps oracle (pending : list (nat * SimObj)) finished s :
  lists s = lists s0 → series s = series s0 →
  NoDup pending.*1 → length pending ≤ steps →
  Forall (λ ix, is_Some (cgm_of_run (snapshot_of s0 ix.2))) pending →
  ∃ s' fin,
    pool_dispatch (simulate_glucose_dynamics cgm_of_run) steps oracle pending finished s
    = (s', Ok fin)
    ∧ lists s' = lists s0 ∧ series s' = series s0
    ∧ (∀ i x, (i, x) ∈ pending → fin !! i = cgm_of_run (snapshot_of s0 x))
    ∧ (∀ i, i ∉ pending.*1 → fin !! i = finished !! i).
Proof.
  revert oracle pending finished s.
  induction steps as [|k IH]; intros oracle pending finished s Hl Hs Hnd Hlen Hall.
  - destruct pending; [|simpl in Hlen; lia].
    exists s, finished. simpl. repeat split; try done.
    intros i x Hin. by apply elem_of_nil in Hin.
  - simpl.
    destruct (pending !! (hd 0 oracle `mod` length pending)) as [[i x]|] eqn:Hk.
    + pose proof (take_drop_middle _ _ _ Hk) as Hsplit.
      set (n := hd 0 oracle `mod` length pending) in *.
      rewrite delete_take_drop.
      set (l1 := take n pending) in *. set (l2 := drop (S n) pending) in *.
      rewrite <- Hsplit in Hnd, Hall, Hlen |- *.
      rewrite fmap_app, fmap_cons in Hnd.
      apply NoDup_app in Hnd as (Hnd1 & Hnd12 & Hnd2).
      apply NoDup_cons in Hnd2 as [Hi2 Hnd2].
      apply Forall_app in Hall as [Hall1 Hall2].
      apply Forall_cons in Hall2 as [[r Hr] Hall2]. simpl in Hr.
      unfold bind at 1. rewrite simulate_glucose_dynamics_eq.
      rewrite (snapshot_of_same_store s0 s) by done. rewrite Hr.
      destruct (IH (tl oracle) (l1 ++ l2) (<[i:=r]> finished)
                  (State (lists s) (series s) (trace s ++ [Simulate x])))
        as (s' & fin & Heq & Hl' & Hs' & Hin & Hout); try done.
      * rewrite fmap_app. apply NoDup_app. split; [done|]. split; [|done].
        intros j Hj1 Hj2. apply (Hnd12 j Hj1). by right.
      * rewrite length_app in *. simpl in Hlen. lia.
      * by apply Forall_app.
      * exists s', fin. split; [done|]. split; [done|]. split; [done|]. split.
        -- intros j y Hjy. apply elem_of_app in Hjy as [Hjy|Hjy].
           ++ apply Hin. apply elem_of_app. by left.
           ++ apply elem_of_cons in Hjy as [[= -> ->]|Hjy].
              ** rewrite Hout, lookup_insert_eq; [done|].
                 rewrite fmap_app. intros [Hc|Hc]%elem_of_app; [|done].
                 apply (Hnd12 i Hc). by left.
              ** apply Hin. apply elem_of_app. by right.
        -- intros j Hj. rewrite fmap_app, fmap_cons in Hj. simpl in Hj.
           rewrite Hout.
           ++ rewrite lookup_insert_ne; [done|]. intros <-.
              apply Hj. apply elem_of_app. right. by left.
           ++ rewrite fmap_app. intros [Hc|Hc]%elem_of_app; apply Hj.
              ** apply elem_of_app. by left.
              ** apply elem_of_app. right. by right.
    + exists s, finished. apply lookup_ge_None in Hk.
      destruct pending as [|p pending].
      * repeat split; try done. intros i x Hin. by apply elem_of_nil in Hin.
      * exfalso. pose proof (Nat.mod_upper_bound (hd 0 oracle) (length (p :: pending))).
        simpl in *. lia.
Qed.

Lemma pool_dispatch_raise s0 steps oracle (pending : list (nat * SimObj)) finished s :
  lists s = lists s0 → series s = series s0 →
  length pending ≤ steps →
  Exists (λ ix, cgm_of_run (snapshot_of s0 ix.2) = None) pending →
  ∃ s',
    pool_dispatch (simulate_glucose_dynamics cgm_of_run) steps oracle pending finished s
    = (s', Raise SimulationFailure)
    ∧ lists s' = lists s0 ∧ series s' = series s0.
Proof.
  revert oracle pending finished s.
  induction steps as [|k IH]; intros oracle pending finished s Hl Hs Hlen Hex.
  - destruct pending; [by apply Exists_nil in Hex|simpl in Hlen; lia].
  - simpl.
    destruct (pending !! (hd 0 oracle `mod` length pending)) as [[i x]|] eqn:Hk.
    + pose proof (take_drop_middle _ _ _ Hk) as Hsplit.
      set (n := hd 0 oracle `mod` length pending) in *.
      rewrite delete_take_drop.
      set (l1 := take n pending) in *. set (l2 := drop (S n) pending) in *.
      rewrite <- Hsplit in Hex, Hlen.
      unfold bind at 1. rewrite simulate_glucose_dynamics_eq.
      rewrite (snapshot_of_same_store s0 s) by done.
      destruct (cgm_of_run (snapshot_of s0 x)) as [r|] eqn:Hr.
      * apply (IH (tl oracle) (l1 ++ l2) (<[i:=r]> finished)
                 (State (lists s) (series s) (trace s ++ [Simulate x]))); try done.
        -- rewrite length_app in *. simpl in Hlen. lia.
        -- apply Exists_app in Hex as [Hex|Hex]; [apply Exists_app; by left|].
           apply Exists_cons in Hex as [Hex|Hex]; [simpl in Hex; congruence|].
           apply Exists_app. by right.
      * by eexists.
    + exfalso. apply lookup_ge_None in Hk.
      destruct pending as [|p pending]; [by apply Exists_nil in Hex|].
      pose proof (Nat.mod_upper_bound (hd 0 oracle) (length (p :: pending))).
      simpl in *. lia.
Qed.

Lemma enumerate_NoDup {A} (l : list A) : NoDup (enumerate l).*1.
Proof.
  apply NoDup_alt. intros i j k Hi Hj. unfold enumerate in *.
  rewrite list_lookup_fmap, list_lookup_imap in Hi, Hj.
  destruct (l !! i); destruct (l !! j); simpl in *; congruence.
Qed.

Lemma collect_finished (g : SimObj → option (list float)) (fin : gmap nat (list float))
    sims rs a :
  (∀ i x, sims !! i = Some x → fin !! (a + i) = g x) →
  mapM g sims = Some rs →
  omap (λ i, fin !! i) (seq a (length sims)) = rs.
Proof.
  revert rs a. induction sims as [|x sims IH]; intros rs a Hfin Hrs.
  - by injection Hrs as <-.
  - simpl in Hrs. destruct (g x) as [r|] eqn:Hr; [|done]. simpl in Hrs.
    destruct (mapM g sims) as [rs'|] eqn:Hrs'; [|done]. injection Hrs as <-.
    simpl. rewrite <- (Nat.add_0_r a) at 1. rewrite (Hfin 0 x) by done.
    rewrite Hr. f_equal. apply IH; [|done].
    intros i y Hy. rewrite <- (Hfin (S i) y) by done. f_equal. lia.
Qed.

(** The pool branch: whatever the completion order, the readings in
    dispatch order, or the failure. *)
Lemma with_Pool_map oracle sims s :
  ∃ s', with_Pool (Pool_map oracle (simulate_glucose_dynamics cgm_of_run) sims) s
        = (s', match readings_of cgm_of_run s sims with
               | Some rs => Ok rs
               | None => Raise SimulationFailure
               end)
        ∧ lists s' = lists s ∧ series s' = series s.
Proof.
  unfold with_Pool, Pool_map. simpl. unfold bind at 1. simpl. unfold bind at 1.
  set (s2 := State (lists s) (series s) ((trace s ++ [PoolEnter]) ++ [PoolMap (length sims)])).
  destruct (readings_of cgm_of_run s sims) as [rs|] eqn:Hrs.
  - destruct (pool_dispatch_ok s (length sims) oracle (enumerate sims) ∅ s2)
      as (s' & fin & Heq & Hl & Hs & Hin & _); try done.
    + apply enumerate_NoDup.
    + unfold enumerate. by rewrite length_imap.
    + apply Forall_forall. intros [i x] Hix%enumerate_lookup. simpl.
      assert (is_Some (readings_of cgm_of_run s sims)) as Hsome by eauto.
      apply mapM_is_Some in Hsome. rewrite Forall_forall in Hsome.
      apply (Hsome x). by eapply list_elem_of_lookup_2.
    + rewrite Heq. unfold ret. simpl.
      exists (State (lists s') (series s') (trace s' ++ [PoolExit])).
      split; [|done].
      f_equal. f_equal. apply (collect_finished (λ o, cgm_of_run (snapshot_of s o))); [|done].
      intros i x Hx. simpl. apply Hin. by apply enumerate_lookup.
  - destruct (pool_dispatch_raise s (length sims) oracle (enumerate sims) ∅ s2)
      as (s' & Heq & Hl & Hs); try done.
    + unfold enumerate. by rewrite length_imap.
    + apply mapM_None in Hrs. apply Exists_exists in Hrs as (x & Hx & Hnone).
      apply list_elem_of_lookup in Hx as [i Hi].
      apply Exists_exists. exists (i, x). split; [|done]. by apply enumerate_lookup.
    + rewrite Heq. simpl.
      by exists (State (lists s') (series s') (trace s' ++ [PoolExit])).
Qed.

(** How [simulate_batch] ends, whichever branch runs. *)
Lemma simulate_batch_with_outcome pathos oracle sims device logger s :
  (simulate_batch_with cgm_of_run pathos oracle sims device logger s).2
  = match readings_of cgm_of_run s sims with
    | None => Raise SimulationFailure
    | Some [] => Raise ValueError
    | Some (a :: rest) =>
        if forallb (λ b, Nat.eqb (length b) (length a)) rest
        then Ok (MkTensor (map (map to_float32) (a :: rest)) float32 device)
        else Raise ValueError
    end.
Proof.
  unfold simulate_batch_with. unfold bind at 1.
  destruct pathos.
  - unfold bind at 1.
    destruct (log_info logger "Using pathos for parallel processing" s)
      as [s1 r1] eqn:Hlog.
    assert (r1 = Ok tt ∧ lists s1 = lists s ∧ series s1 = series s) as (-> & Hl & Hs).
    { destruct logger; simpl in Hlog; by injection Hlog as <- <-. }
    destruct (with_Pool_map oracle sims s1) as (s' & -> & _).
    rewrite (readings_of_same_store s s1) by done.
    destruct (readings_of cgm_of_run s sims) as [[|a rest]|]; try done.
    unfold bind, np_stack. destruct (forallb _ rest); [|done].
    by destruct logger.
  - destruct (comprehension_simulate sims s) as (s' & -> & _).
    destruct (readings_of cgm_of_run s sims) as [[|a rest]|]; try done.
    unfold bind, np_stack. destruct (forallb _ rest); [|done].
    by destruct logger.
Qed.

End Runner.

(** * The claims *)

(** ** The parameter patcher *)

Lemma Series_attr_parameter name :
  name ∈ simglucose_parameters → Series_attr name = NoAttribute.
Proof.
  intros Hin. unfold Series_attr.
  assert (existsb (String.eqb name) simglucose_parameters = true) as ->; [|done].
  apply existsb_exists. exists name. split; [by apply list_elem_of_In|].
  apply String.eqb_refl.
Qed.

(** C1.  With names ["BW"; "meal_1"], a scenario [("breakfast", 40)] and the
    row [70.0; 60.0], [set_custom_params] with [infer_meal_params] true ends
    normally and leaves the patient's record with BW = 70.0 and the
    scenario equal to [("breakfast", 60.0)]. *)
Theorem patch_BW_and_breakfast (o : SimObj) (s : state) :
  lists s !!! sloc o = [(VStr "breakfast", VInt 40)] →
  ∃ s', set_custom_params o [float_of_Z 70; float_of_Z 60]
          (Inferred ["BW"; "meal_1"]) true s = (s', Ok tt)
        ∧ (series s' !!! ploc o) !! "BW" = Some (VFloat (float_of_Z 70))
        ∧ lists s' !!! sloc o = [(VStr "breakfast", VFloat (float_of_Z 60))].
Proof.
  intros Hsc.
  pose proof (set_custom_params_local o [float_of_Z 70; float_of_Z 60]
                (Inferred ["BW"; "meal_1"]) true s) as Hloc.
  rewrite Hsc in Hloc.
  assert (patch_result (params_names (Inferred ["BW"; "meal_1"]))
            [float_of_Z 70; float_of_Z 60] true [(VStr "breakfast", VInt 40)]
            (series s !!! ploc o)
          = ([(VStr "breakfast", VFloat (float_of_Z 60))],
             <["BW" := VFloat (float_of_Z 70)]> (series s !!! ploc o), Ok tt)) as Hres.
  { unfold patch_result.
    change (meal_values_of _ _) with (Some [float_of_Z 60]).
    change (other_values_of _ _) with (Some [float_of_Z 70]).
    change (patches_meals _ _) with true. cbv beta iota zeta.
    change (zip _ _) with [("BW", float_of_Z 70)].
    destruct (decide _) as [_|Hn]; [|simpl in Hn; lia].
    rewrite set_attrs_upto_accepted; [reflexivity|].
    constructor; [|constructor]. cbn [fst].
    rewrite Series_attr_parameter; [done|].
    apply list_elem_of_In. simpl. tauto. }
  rewrite Hres in Hloc.
  destruct (set_custom_params o _ _ true s) as [s' r]. simpl in Hloc.
  injection Hloc as Hl Hs ->.
  exists s'. split; [done|]. split; [|done].
  rewrite Hs. apply lookup_insert_eq.
Qed.

(** C7.  With [infer_meal_params] false, or with no name containing
    "meal", the patcher leaves every scenario list as it was; with no name
    lacking "meal" it leaves every parameter record as it was; and the loop
    over the non-meal parameters never writes a list, the loop over the
    meals never writes a record. *)
Theorem patcher_frames (o : SimObj) (theta : list float) (ip : InferredParams)
    (infer : bool) (s : state) :
  (infer = false ∨ Forall (λ n, contains "meal" n = false) (params_names ip) →
   lists (set_custom_params o theta ip infer s).1 = lists s)
  ∧ (Forall (λ n, contains "meal" n = true) (params_names ip) →
     series (set_custom_params o theta ip infer s).1 = series s)
  ∧ (∀ params values s0,
       lists (_update_patient_parameters (patient (env o)) params values s0).1
       = lists s0)
  ∧ (∀ meal_values s0,
       series (_update_meal_parameters (sloc o) meal_values s0).1 = series s0).
Proof.
  split; [|split; [|split]].
  - intros H. by apply set_custom_params_lists_unchanged, patches_meals_false.
  - intros H. by apply set_custom_params_series_unchanged, non_meal_of_nil.
  - intros ps vs s0. rewrite _update_patient_parameters_eq. simpl.
    by destruct (writes (zip ps vs)).
  - intros mv s0. by rewrite _update_meal_parameters_eq.
Qed.

(** C4 (as amended).  A parameter vector shorter than [params_names] makes
    the patcher raise [IndexError] before anything is written: the state
    is the one it started from.  A meal-value count below the length of
    the scenario is not detected before writing: when the vector covers
    the names, meals are patched and the scenario has more entries than
    there are meal names, [IndexError] is raised after the leading
    scenario entries have been overwritten (the records are untouched). *)
Theorem dimension_errors (o : SimObj) (theta : list float) (ip : InferredParams)
    (infer : bool) (s : state) :
  (length theta < length (params_names ip) →
   set_custom_params o theta ip infer s = (s, Raise IndexError))
  ∧ (length (params_names ip) ≤ length theta →
     infer = true → meal_indices_of (params_names ip) ≠ [] →
     length (meal_indices_of (params_names ip)) < length (lists s !!! sloc o) →
     ∃ s' mv,
       set_custom_params o theta ip infer s = (s', Raise IndexError)
       ∧ meal_values_of (params_names ip) theta = Some mv
       ∧ lists s' !!! sloc o = meal_patch (lists s !!! sloc o) mv
       ∧ series s' = series s).
Proof.
  split.
  - intros Hlen. rewrite set_custom_params_eq.
    destruct (values_of_short _ _ Hlen) as [-> | ->]; [done|].
    by destruct (meal_values_of _ theta).
  - intros Hlen Hinfer Hmeal Hsc.
    destruct (meal_values_of_is_Some _ _ Hlen) as [mv Hmv].
    destruct (other_values_of_is_Some _ _ Hlen) as [ov Hov].
    rewrite set_custom_params_eq, Hmv, Hov.
    rewrite (proj2 (patches_meals_true infer _)) by done.
    pose proof (meal_values_of_length _ _ _ Hmv).
    cbv zeta. destruct (decide _); [lia|].
    eexists _, mv. split; [done|]. split; [done|]. simpl.
    by rewrite alter_meal_patch_total.
Qed.

(** C10.  When the row has more entries than there are names, the call is
    the call on the row cut to the number of names: the same final state
    and the same outcome.  Every value read from the row sits at the
    position of a name; the surplus is never read, raises nothing and
    changes nothing. *)
Theorem surplus_entries_ignored (o : SimObj) (theta : list float) (ip : InferredParams)
    (infer : bool) (s : state) :
  length (params_names ip) < length theta →
  set_custom_params o theta ip infer s
  = set_custom_params o (take (length (params_names ip)) theta) ip infer s
  ∧ (_separate_parameters (params_names ip) theta s).2
    = (_separate_parameters (params_names ip)
         (take (length (params_names ip)) theta) s).2
  ∧ ∃ mi mv op ov,
      (_separate_parameters (params_names ip) theta s).2 = Ok (mi, mv, op, ov).
Proof.
  intros Hlen.
  destruct (values_of_take (params_names ip) theta) as [Hm Ho].
  split; [|split].
  - rewrite !set_custom_params_eq. by rewrite Hm, Ho.
  - rewrite !_separate_parameters_eq. simpl. by rewrite Hm, Ho.
  - rewrite _separate_parameters_eq. simpl.
    destruct (meal_values_of_is_Some (params_names ip) theta) as [mv ->]; [lia|].
    destruct (other_values_of_is_Some (params_names ip) theta) as [ov ->]; [lia|].
    by eexists _, _, _, _.
Qed.

(** C3 (as amended).  Let the row cover the names, the class of the record
    refuse none of them and, where meals are patched, the scenario be no
    longer than the meal names.  Then a non-meal name that is no attribute
    of the patient's record, neither of the object nor of its class,
    raises nothing: the call ends normally, the record now binds the name
    to the value at the name's last position, and no event at all has
    happened, no [simulate()] in particular.  The binding is the object's
    own: when the name is no label of the index, a deep copy taken
    afterwards does not have it. *)
Theorem unknown_name_is_bound (patient_params : string → gmap string pyval)
    (o : SimObj) (theta : list float) (ip : InferredParams)
    (infer : bool) (s : state) (i : nat) (name : string) (v : float) :
  length (params_names ip) ≤ length theta →
  Forall assignable (params_names ip) →
  (infer = true → meal_indices_of (params_names ip) ≠ [] →
   length (lists s !!! sloc o) ≤ length (meal_indices_of (params_names ip))) →
  params_names ip !! i = Some name →
  contains "meal" name = false →
  Series_attr name = NoAttribute →
  (series s !!! ploc o) !! name = None →
  (∀ j, i < j → params_names ip !! j ≠ Some name) →
  theta !! i = Some v →
  ∃ s', set_custom_params o theta ip infer s = (s', Ok tt)
        ∧ (series s' !!! ploc o) !! name = Some (VFloat v)
        ∧ trace s' = trace s
        ∧ (name ∉ Series_index patient_params (pat_name (patient (env o))) →
           ∀ s2 c, deepcopy patient_params o s' = (s2, Ok c) →
                   (series s2 !!! ploc c) !! name = None).
Proof.
  intros Hlen Hall Hsc Hi Hc _ _ Hlast Hv.
  pose proof (set_custom_params_local o theta ip infer s) as Hloc.
  pose proof (set_custom_params_trace o theta ip infer s) as Htr.
  pose proof (set_custom_params_ok o theta ip infer s Hlen Hall Hsc) as Hok.
  destruct (set_custom_params o theta ip infer s) as [s' r]. simpl in *. subst r.
  exists s'. split; [done|]. split; [|split; [done|]].
  - destruct (other_values_of_is_Some _ _ Hlen) as [ov Hov].
    apply (f_equal (λ x, x.1.2)) in Hloc as Hrec. simpl in Hrec.
    rewrite (patch_result_ok_record _ _ _ _ _ ov) in Hrec;
      [|done|by rewrite <- Hloc].
    rewrite Hrec. by eapply set_custom_params_sets_name.
  - intros Hidx s2 c. rewrite deepcopy_eq. intros [= <- <-]. simpl.
    rewrite lookup_total_insert_eq. apply map_lookup_filter_None. right.
    intros x _. done.
Qed.

(** ** The environment factory *)

(** C2 (as amended).  Let the caller's scenario list be a live object, the
    default environment be built without error, every row have as many
    entries as there are names, the class of the record refuse none of the
    names and, where meals are patched, the scenario have no more entries
    than there are meal names.  Then the factory returns exactly one
    environment per row, and the i-th one is what a deep copy of the
    default environment patched with the i-th row alone is. *)
Theorem create_envs_one_per_row_in_order (patient_params : string → gmap string pyval)
    (theta : list (list float)) (settings : DeafultSimulationEnv)
    (ip : InferredParams) (hours : Z) (infer : bool) (now : datetime)
    (s0 s1 : state) (d : SimObj) :
  is_Some (lists s0 !! scenario settings) →
  load_default_simulation_env patient_params settings hours now s0 = (s1, Ok d) →
  Forall (λ row, length row = length (params_names ip)) theta →
  Forall assignable (params_names ip) →
  (infer = true → meal_indices_of (params_names ip) ≠ [] →
   length (lists s0 !!! scenario settings) ≤ length (meal_indices_of (params_names ip))) →
  ∃ s' envs,
    create_simulation_envs_with_custom_params patient_params theta settings ip
      hours infer now s0 = (s', Ok envs)
    ∧ length envs = length theta
    ∧ ∀ i row e, theta !! i = Some row → envs !! i = Some e →
        patched_alone patient_params d ip infer row s1 = Some (snapshot_of s' e).
Proof.
  intros Hlive Hload Hrows Hnames Hsc.
  destruct (load_default_simulation_env_spec _ _ _ _ _ _ _ Hload)
    as (_ & Hext & Hlists & Hp & Hs & Hsnap & Hin).
  assert (sloc d ∈ dom (lists s1)) as Hslive.
  { rewrite Hs, Hlists. by apply elem_of_dom. }
  assert (Forall (λ row, (patch_result (params_names ip) row infer
                            (lists s1 !!! sloc d) (series s1 !!! ploc d)).2 = Ok tt)
            theta) as Hok.
  { eapply Forall_impl; [exact Hrows|]. intros row Hrow. simpl in Hrow.
    rewrite patch_result_outcome by (done || lia).
    destruct (patches_meals infer (params_names ip)) eqn:Hpm; [|done].
    apply patches_meals_true in Hpm as [Hi Hm]. simpl.
    rewrite Hs, Hlists.
    destruct (Nat.ltb_spec (length (meal_indices_of (params_names ip)))
                (length (lists s0 !!! scenario settings))); [|done].
    specialize (Hsc Hi Hm). lia. }
  destruct (comprehension_custom_rows patient_params d ip infer s1 theta s1 Hp Hslive Hin)
    as (s' & envs & Hrun & _ & Hlen & Hall); [done|done|].
  exists s', envs. split; [|split; [done|]].
  - unfold create_simulation_envs_with_custom_params.
    by erewrite bind_ok by exact Hload.
  - intros i row e Hi He. rewrite (Hall i row e Hi He).
    apply patched_alone_eq; [done|].
    rewrite Forall_forall in Hok. apply Hok. by eapply list_elem_of_lookup_2.
Qed.

(** C6.  Let the caller's scenario list be a live object and the default
    environment be built.  Whatever the matrix, and whether the factory
    returns or raises, the default environment holds at the end what it
    held when built, and so does the caller's list; a build started
    afterwards begins from the same baseline as one started before; and a
    deep copy of the default taken afterwards is that baseline. *)
Theorem default_env_never_mutated (patient_params : string → gmap string pyval)
    (theta : list (list float)) (settings : DeafultSimulationEnv)
    (ip : InferredParams) (hours : Z) (infer : bool) (now : datetime)
    (s0 s1 : state) (d : SimObj) :
  is_Some (lists s0 !! scenario settings) →
  load_default_simulation_env patient_params settings hours now s0 = (s1, Ok d) →
  ∀ s' r,
    create_simulation_envs_with_custom_params patient_params theta settings ip
      hours infer now s0 = (s', r) →
    snapshot_of s' d = snapshot_of s1 d
    ∧ lists s' !! scenario settings = lists s0 !! scenario settings
    ∧ (∀ hours' now',
         baseline patient_params settings hours' now' s'
         = baseline patient_params settings hours' now' s0)
    ∧ (∀ s2 c, deepcopy patient_params d s' = (s2, Ok c) →
               snapshot_of s2 c = snapshot_of s1 d).
Proof.
  intros Hlive Hload s' r Hrun.
  destruct (load_default_simulation_env_spec _ _ _ _ _ _ _ Hload)
    as (_ & Hext & Hlists & Hp & Hs & Hsnap & Hin).
  assert (sloc d ∈ dom (lists s1)) as Hslive.
  { rewrite Hs, Hlists. by apply elem_of_dom. }
  unfold create_simulation_envs_with_custom_params in Hrun.
  erewrite bind_ok in Hrun by exact Hload.
  pose proof (comprehension_custom_extends patient_params d ip infer theta s1) as Hext'.
  rewrite Hrun in Hext'. simpl in Hext'.
  assert (lists s' !! scenario settings = lists s0 !! scenario settings) as Hsame.
  { destruct Hext' as (Hl & _). rewrite <- Hs, Hl by done. by rewrite Hlists. }
  pose proof (extends_snapshot s1 s' d Hext' Hp Hslive) as Hd.
  split; [done|]. split; [done|]. split.
  - intros hours' now'. unfold baseline.
    destruct (load_error settings hours') as [e|] eqn:Herr.
    + destruct (load_default_simulation_env_raise patient_params settings hours' now'
                  s' e Herr) as [Ha _].
      destruct (load_default_simulation_env_raise patient_params settings hours' now'
                  s0 e Herr) as [Hb _].
      destruct (load_default_simulation_env patient_params settings hours' now' s')
        as [sa [da|ea]]; [discriminate Ha|].
      destruct (load_default_simulation_env patient_params settings hours' now' s0)
        as [sb [db|eb]]; [discriminate Hb|done].
    + rewrite !load_default_simulation_env_eq by done.
      unfold snapshot_of. simpl.
      by rewrite !lookup_total_insert_eq, !lookup_total_alt, Hsame.
  - intros s2 c Hc. rewrite <- Hd. apply (deepcopy_snapshot patient_params); [|done].
    by eapply within_index_extends.
Qed.

(** ** The batch runner *)

(** C5 (as amended).  On the empty list [simulate_batch] does enter the
    pool and call its map, on no task; [np.stack] of no array then raises
    [ValueError], so no result batch is returned.  On a list of one
    environment whose run succeeds it returns the one-row batch of that
    run's readings. *)
Theorem simulate_batch_sizes_0_and_1 (cgm_of_run : snapshot → option (list float))
    (oracle : list nat) (device : torch_device) (logger : bool) (s : state) :
  simulate_batch cgm_of_run oracle [] device logger s
  = (State (lists s) (series s)
       (trace s
        ++ (if logger then [LogInfo "Using pathos for parallel processing"] else [])
        ++ [PoolEnter; PoolMap 0; PoolExit]),
     Raise ValueError)
  ∧ ∀ o readings,
      cgm_of_run (snapshot_of s o) = Some readings →
      (simulate_batch cgm_of_run oracle [o] device logger s).2
      = Ok (MkTensor [map to_float32 readings] float32 device).
Proof.
  split.
  - unfold simulate_batch, simulate_batch_with, bind, with_Pool, Pool_map, bind.
    destruct logger; simpl; rewrite <- ?app_assoc; reflexivity.
  - intros o readings Hr. unfold simulate_batch.
    rewrite simulate_batch_with_outcome. unfold readings_of. simpl.
    rewrite Hr. reflexivity.
Qed.

(** C8.  Whatever the completion order in the pool, the sequential branch
    and the pool branch of [simulate_batch] end the same way: the same
    tensor, or an exception in both. *)
Theorem sequential_matches_pool (cgm_of_run : snapshot → option (list float))
    (oracle oracle' : list nat) (simulations : list SimObj) (device : torch_device)
    (logger : bool) (s : state) :
  (simulate_batch_with cgm_of_run false oracle' simulations device logger s).2
  = (simulate_batch_with cgm_of_run true oracle simulations device logger s).2.
Proof. by rewrite !simulate_batch_with_outcome. Qed.

(** C9.  The one thing a caller of [simulate_batch] asks for is the
    device.  A tensor returned by [simulate_batch] is on the device given,
    with the numeric type of [.float()], always; and for a batch that is
    not empty, whose runs all succeed with series of one length, the call
    does return: the stacked readings, converted, on that device. *)
Theorem simulate_batch_float32_on_device (cgm_of_run : snapshot → option (list float))
    (oracle : list nat) (simulations : list SimObj) (device : torch_device)
    (logger : bool) (s : state) :
  (∀ s' t,
     simulate_batch cgm_of_run oracle simulations device logger s = (s', Ok t) →
     tensor_device t = device ∧ tensor_dtype t = float32)
  ∧ (∀ a rest,
       readings_of cgm_of_run s simulations = Some (a :: rest) →
       Forall (λ b, length b = length a) rest →
       (simulate_batch cgm_of_run oracle simulations device logger s).2
       = Ok (MkTensor (map (map to_float32) (a :: rest)) float32 device)).
Proof.
  split.
  - intros s' t Hrun.
    pose proof (simulate_batch_with_outcome cgm_of_run true oracle simulations
                  device logger s) as Hout.
    unfold simulate_batch in Hrun. rewrite Hrun in Hout. simpl in Hout.
    destruct (readings_of cgm_of_run s simulations) as [[|a rest]|]; try done.
    destruct (forallb _ rest); [|done]. by injection Hout as ->.
  - intros a rest Hr Hlen. unfold simulate_batch.
    rewrite simulate_batch_with_outcome, Hr.
    assert (forallb (λ b, Nat.eqb (length b) (length a)) rest = true) as ->; [|done].
    apply forallb_forall. intros b Hb%list_elem_of_In.
    rewrite Forall_forall in Hlen. apply Nat.eqb_eq. by apply Hlen.
Qed.

(** * Further properties *)

(** ** Substrings *)

Lemma append_String a s t : String a s +:+ t = String a (s +:+ t).
Proof. reflexivity. Qed.

Lemma append_empty t : "" +:+ t = t.
Proof. reflexivity. Qed.

Lemma prefix_spec sub s :
  String.prefix sub s = true ↔ ∃ post, s = sub +:+ post.
Proof.
  revert s. induction sub as [|a sub IH]; intros s.
  - split; [intros _; by exists s|intros _; by destruct s].
  - destruct s as [|b s]; simpl.
    + split; [done|]. intros [post Hp]. by rewrite append_String in Hp.
    + destruct (Ascii.ascii_dec a b) as [->|Hne].
      * rewrite IH. split; intros [post Hp]; exists post;
          rewrite append_String in *; congruence.
      * split; [done|]. intros [post Hp]. rewrite append_String in Hp. congruence.
Qed.

Lemma contains_unfold sub s :
  contains sub s
  = String.prefix sub s
    || match s with EmptyString => false | String _ s' => contains sub s' end.
Proof. by destruct s. Qed.

Lemma contains_spec sub s :
  contains sub s = true ↔ ∃ pre post, s = pre +:+ sub +:+ post.
Proof.
  induction s as [|b s IH]; rewrite contains_unfold.
  - rewrite orb_false_r, prefix_spec. split.
    + intros [post Hp]. by exists "", post.
    + intros (pre & post & Hp). destruct pre; [by exists post|].
      by rewrite append_String in Hp.
  - rewrite orb_true_iff, prefix_spec, IH. split.
    + intros [[post Hp]|(pre & post & Hp)].
      * by exists "", post.
      * exists (String b pre), post. by rewrite append_String, Hp.
    + intros (pre & post & Hp). destruct pre as [|c pre].
      * left. by exists post.
      * right. exists pre, post. rewrite append_String in Hp. congruence.
Qed.

(** ** The partition made by [_separate_parameters] *)

Lemma filter_enumerate_zip (q : string → bool) (names : list string)
    (theta : list float) (a : nat) :
  length names ≤ length (drop a theta) →
  mapM (λ ip : nat * string, theta !! ip.1)
    (List.filter (λ ip, q ip.2) (imap (λ j x, (a + j, x)) names))
  = Some ((List.filter (λ nv : string * float, q nv.1) (zip names (drop a theta))).*2)
  ∧ (List.filter (λ ip : nat * string, q ip.2) (imap (λ j x, (a + j, x)) names)).*2
    = List.filter q names
  ∧ (List.filter (λ nv : string * float, q nv.1) (zip names (drop a theta))).*1
    = List.filter q names.
Proof.
  revert a. induction names as [|n names IH]; intros a Hlen; [done|].
  destruct (drop a theta) as [|v rest] eqn:Hdrop; [simpl in Hlen; lia|].
  assert (theta !! a = Some v) as Hv.
  { rewrite <- (Nat.add_0_r a), <- lookup_drop, Hdrop. done. }
  assert (drop (S a) theta = rest) as Hrest.
  { change rest with (drop 1 (v :: rest)). rewrite <- Hdrop, drop_drop.
    f_equal. lia. }
  destruct (IH (S a)) as (IH1 & IH2 & IH3).
  { rewrite Hrest. simpl in Hlen. lia. }
  rewrite Hrest in IH1, IH3.
  assert (imap (λ j x, (a + j, x)) (n :: names)
          = (a, n) :: imap (λ j x, (S a + j, x)) names) as ->.
  { simpl. rewrite Nat.add_0_r. f_equal. apply imap_ext. intros j x _. simpl.
    f_equal. lia. }
  set (tl := imap (λ j x, (S a + j, x)) names) in *.
  simpl. destruct (q n); simpl.
  - rewrite Hv. simpl. rewrite IH1. simpl.
    split; [done|]. split; f_equal; [exact IH2|exact IH3].
  - done.
Qed.

Lemma mapM_fst_indices (theta : list float) (l : list (nat * string)) :
  mapM (λ i, theta !! i) l.*1 = mapM (λ ip : nat * string, theta !! ip.1) l.
Proof.
  induction l as [|[i n] l IH]; [done|].
  rewrite fmap_cons. simpl. by rewrite IH.
Qed.

Lemma filter_partition_length {A} (q : A → bool) (l : list A) :
  length (List.filter q l) + length (List.filter (λ x, negb (q x)) l) = length l.
Proof. induction l as [|x l IH]; simpl; [done|]. destruct (q x); simpl; lia. Qed.

(** X1.  [_separate_parameters] writes nothing, and it raises exactly when
    the row is shorter than the list of names; what it raises is
    [IndexError]. *)
Theorem separate_raises_iff_short (names : list string) (theta : list float)
    (s : state) :
  (_separate_parameters names theta s).1 = s
  ∧ ((_separate_parameters names theta s).2 = Raise IndexError ↔
     length theta < length names)
  ∧ (∀ e, (_separate_parameters names theta s).2 = Raise e → e = IndexError).
Proof.
  rewrite _separate_parameters_eq. simpl. split; [done|].
  destruct (decide (length theta < length names)) as [Hlt|Hge].
  - destruct (values_of_short names theta Hlt) as [-> | ->].
    + split; [done|]. by intros e [= <-].
    + destruct (meal_values_of names theta); (split; [done|]); by intros e [= <-].
  - destruct (meal_values_of_is_Some names theta) as [mv ->]; [lia|].
    destruct (other_values_of_is_Some names theta) as [ov ->]; [lia|].
    split; [|done]. split; [done|lia].
Qed.

(** X2.  On a row that covers the names, [_separate_parameters] splits
    names and values in two without reordering either part: the other
    names are the names without "meal", in their order, each paired with
    the value of its own position; the meal values are the values at the
    names with "meal", in their order; nothing is lost. *)
Theorem separate_keeps_order (names : list string) (theta : list float) (s : state) :
  length names ≤ length theta →
  ∃ mi mv op ov,
    (_separate_parameters names theta s).2 = Ok (mi, mv, op, ov)
    ∧ op = List.filter (λ n, negb (contains "meal" n)) names
    ∧ zip op ov
      = List.filter (λ nv : string * float, negb (contains "meal" nv.1)) (zip names theta)
    ∧ mv = (List.filter (λ nv : string * float, contains "meal" nv.1) (zip names theta)).*2
    ∧ length mi = length mv
    ∧ length mi + length op = length names.
Proof.
  intros Hlen. rewrite _separate_parameters_eq. simpl.
  destruct (filter_enumerate_zip (contains "meal") names theta 0)
    as (Hm1 & Hm2 & Hm3); [by rewrite drop_0|].
  destruct (filter_enumerate_zip (λ n, negb (contains "meal" n)) names theta 0)
    as (Ho1 & Ho2 & Ho3); [by rewrite drop_0|].
  rewrite drop_0 in Hm1, Hm3, Ho1, Ho3.
  unfold meal_values_of, other_values_of, meal_indices_of, non_meal_of, enumerate.
  rewrite mapM_fst_indices.
  change (imap pair names) with (imap (λ j x, (0 + j, x)) names).
  rewrite Hm1, Ho1, Ho2.
  eexists _, _, _, _. split; [done|]. split; [done|]. split.
  { rewrite <- Ho3. apply zip_fst_snd. }
  split; [done|]. split.
  { rewrite !length_fmap. rewrite <- (length_fmap snd), Hm2.
    by rewrite <- (length_fmap fst), Hm3. }
  rewrite length_fmap. rewrite <- (length_fmap snd), Hm2.
  apply filter_partition_length.
Qed.


(** X3.  A name counts as a meal parameter exactly when "meal" occurs in
    it, anywhere and in this very spelling: the meal indices returned are
    the positions of the names of the form pre ++ "meal" ++ post, and the
    other names returned are the names not of that form. *)
Theorem meal_names_are_those_containing_meal (names : list string)
    (theta : list float) (s : state) (mi : list nat) (mv : list float)
    (op : list string) (ov : list float) :
  (_separate_parameters names theta s).2 = Ok (mi, mv, op, ov) →
  (∀ i, i ∈ mi ↔ ∃ pre post, names !! i = Some (pre +:+ "meal" +:+ post))
  ∧ (∀ n, n ∈ op ↔ n ∈ names ∧ ¬ ∃ pre post, n = pre +:+ "meal" +:+ post).
Proof.
  rewrite _separate_parameters_eq. simpl.
  destruct (meal_values_of names theta) as [mv'|]; [|done].
  destruct (other_values_of names theta) as [ov'|]; [|done].
  intros [= <- <- <- <-]. split.
  - intros i. rewrite meal_indices_of_spec. split.
    + intros (n & Hn & (pre & post & ->)%contains_spec). eauto.
    + intros (pre & post & Hn). eexists. split; [done|].
      apply contains_spec. eauto.
  - intros n. rewrite list_elem_of_fmap. split.
    + intros ([i n'] & -> & [Hn Hc]%non_meal_of_spec). simpl. split.
      * by eapply list_elem_of_lookup_2.
      * intros Hex%contains_spec. congruence.
    + intros [[i Hi]%list_elem_of_lookup Hnot]. exists (i, n). split; [done|].
      apply non_meal_of_spec. split; [done|].
      destruct (contains "meal" n) eqn:Hc; [|done].
      by apply contains_spec in Hc.
Qed.


(** ** The two loops, entry by entry *)

Lemma meal_patch_zip_with sc mv :
  meal_patch sc mv
  = zip_with (λ (m : meal) (v : float), (m.1, VFloat v)) sc mv ++ drop (length mv) sc.
Proof.
  revert mv. induction sc as [|[n a] sc IH]; intros [|v mv]; simpl; try done.
  by rewrite IH.
Qed.

Lemma meal_patch_names sc mv : (meal_patch sc mv).*1 = sc.*1.
Proof.
  revert mv. induction sc as [|[n a] sc IH]; intros [|v mv]; simpl; try done.
  by rewrite IH.
Qed.

Lemma meal_patch_idem sc mv : meal_patch (meal_patch sc mv) mv = meal_patch sc mv.
Proof.
  revert mv. induction sc as [|[n a] sc IH]; intros [|v mv]; simpl; try done.
  by rewrite IH.
Qed.

Lemma set_attrs_zip_notin rec ps (vs : list float) k :
  k ∉ ps → set_attrs rec (zip ps vs) !! k = rec !! k.
Proof.
  intros Hk. apply set_attrs_notin.
  intros ([k' v] & -> & Hin)%list_elem_of_fmap. apply Hk. by eapply elem_of_zip_l.
Qed.

Lemma set_attrs_zip_last rec ps (vs : list float) i k v :
  ps !! i = Some k → vs !! i = Some v →
  (∀ j, i < j → ps !! j ≠ Some k) →
  set_attrs rec (zip ps vs) !! k = Some (VFloat v).
Proof.
  revert rec vs i. induction ps as [|p ps IH]; intros rec vs i Hk Hv Hlast; [done|].
  destruct vs as [|w vs]; [done|].
  destruct i as [|i]; simpl in *.
  - injection Hk as ->. injection Hv as ->.
    change (set_attrs (<[k:=VFloat v]> rec) (zip ps vs) !! k = Some (VFloat v)).
    rewrite set_attrs_zip_notin; [apply lookup_insert_eq|].
    intros [j Hj]%list_elem_of_lookup. by apply (Hlast (S j)); [lia|].
  - apply (IH (<[p:=VFloat w]> rec) vs i); [done..|].
    intros j Hj. apply (Hlast (S j)). lia.
Qed.

(** X4.  [_update_meal_parameters] patches by position: entry j of the
    scenario keeps its meal name and takes meal value j; the entries past
    the last value are left as they are, and then, and only then, the call
    raises [IndexError]; values past the last entry are not used.  No
    other list, no record and no event is touched. *)
Theorem update_meals_by_position (l : loc) (mv : list float) (s : state) :
  lists (_update_meal_parameters l mv s).1 !!! l
  = zip_with (λ (m : meal) (v : float), (m.1, VFloat v)) (lists s !!! l) mv
    ++ drop (length mv) (lists s !!! l)
  ∧ (lists (_update_meal_parameters l mv s).1 !!! l).*1 = (lists s !!! l).*1
  ∧ (_update_meal_parameters l mv s).2
    = (if decide (length (lists s !!! l) ≤ length mv) then Ok tt else Raise IndexError)
  ∧ (∀ l', l' ≠ l → lists (_update_meal_parameters l mv s).1 !! l' = lists s !! l')
  ∧ series (_update_meal_parameters l mv s).1 = series s
  ∧ trace (_update_meal_parameters l mv s).1 = trace s.
Proof.
  rewrite _update_meal_parameters_eq. simpl.
  rewrite alter_meal_patch_total, meal_patch_names.
  split; [apply meal_patch_zip_with|]. split; [done|]. split; [done|].
  split; [|done]. intros l' Hl'. by rewrite lookup_alter_ne.
Qed.

(** X5.  [_update_patient_parameters] writes no list, no other record and
    logs nothing; what it raises, if anything, is what the class of the
    record raises for one of the names.  When no name is an attribute of
    the class it ends normally; afterwards an attribute that is not among
    the names is what it was, and a name is bound to the value at its last
    position that has a value. *)
Theorem update_patient_binds_names (p : T1DPatient) (params : list string)
    (values : list float) (s : state) :
  lists (_update_patient_parameters p params values s).1 = lists s
  ∧ trace (_update_patient_parameters p params values s).1 = trace s
  ∧ (∀ l, l ≠ _params p →
       series (_update_patient_parameters p params values s).1 !! l = series s !! l)
  ∧ (∀ e, (_update_patient_parameters p params values s).2 = Raise e →
          ∃ k, k ∈ params ∧ Series_attr k = Refuses e)
  ∧ (Forall (λ k, Series_attr k = NoAttribute) params →
     (_update_patient_parameters p params values s).2 = Ok tt
     ∧ (∀ k, k ∉ params →
          (series (_update_patient_parameters p params values s).1 !!! _params p) !! k
          = (series s !!! _params p) !! k)
     ∧ (∀ i k v, params !! i = Some k → values !! i = Some v →
          (∀ j, i < j → params !! j ≠ Some k) →
          (series (_update_patient_parameters p params values s).1 !!! _params p) !! k
          = Some (VFloat v))).
Proof.
  rewrite _update_patient_parameters_eq. cbn [fst snd].
  assert (series (if writes (zip params values)
                  then State (lists s)
                         (<[_params p:=(set_attrs_upto (series s !!! _params p)
                                          (zip params values)).1]> (series s))
                         (trace s)
                  else s) !!! _params p
          = (set_attrs_upto (series s !!! _params p) (zip params values)).1) as Hrec.
  { destruct (writes (zip params values)) eqn:Hw.
    - simpl. by rewrite lookup_total_insert_eq.
    - by rewrite set_attrs_upto_not_writes. }
  split; [by destruct (writes _)|].
  split; [by destruct (writes _)|].
  split; [|split].
  - intros l Hl. destruct (writes _); [|done]. simpl. by rewrite lookup_insert_ne.
  - intros e (k & Hk & He)%set_attrs_upto_raise. exists k. split; [|done].
    apply list_elem_of_fmap in Hk as ([k' v] & -> & Hin). by eapply elem_of_zip_l.
  - intros Hall. rewrite Hrec.
    rewrite set_attrs_upto_accepted.
    2:{ apply Forall_forall. intros [k v] Hin%elem_of_zip_l. simpl.
        rewrite Forall_forall in Hall. by rewrite (Hall k). }
    cbn [fst snd]. split; [done|]. split.
    + intros k Hk. by apply set_attrs_zip_notin.
    + intros i k v Hk Hv Hlast. by eapply set_attrs_zip_last.
Qed.

(** ** The patcher as a whole *)

Lemma last_occurrence (pvs : list (string * float)) k :
  k ∈ pvs.*1 → ∃ pre v post, pvs = pre ++ (k, v) :: post ∧ k ∉ post.*1.
Proof.
  induction pvs as [|[k' v'] pvs IH]; intros Hin; [by apply elem_of_nil in Hin|].
  destruct (decide (k ∈ pvs.*1)) as [Hk|Hk].
  - destruct (IH Hk) as (pre & v & post & -> & Hpost).
    by exists ((k', v') :: pre), v, post.
  - rewrite fmap_cons in Hin. apply elem_of_cons in Hin as [->|Hin]; [|done].
    by exists [], v', pvs.
Qed.

Lemma set_attrs_idem rec pvs : set_attrs (set_attrs rec pvs) pvs = set_attrs rec pvs.
Proof.
  apply map_eq. intros k. destruct (decide (k ∈ pvs.*1)) as [Hk|Hk].
  - destruct (last_occurrence pvs k Hk) as (pre & v & post & -> & Hpost).
    by rewrite !set_attrs_last.
  - by rewrite !set_attrs_notin.
Qed.

Lemma _update_patient_parameters_idem p ps vs s :
  (_update_patient_parameters p ps vs s).2 = Ok tt →
  _update_patient_parameters p ps vs (_update_patient_parameters p ps vs s).1
  = ((_update_patient_parameters p ps vs s).1, Ok tt).
Proof.
  rewrite !_update_patient_parameters_eq. cbn [fst snd].
  intros Hok%set_attrs_upto_ok.
  rewrite !(set_attrs_upto_accepted _ (zip ps vs)) by done. cbn [fst snd].
  destruct (writes (zip ps vs)); [|done].
  cbn [lists series trace].
  rewrite lookup_total_insert_eq, insert_insert_eq.
  by rewrite set_attrs_idem.
Qed.

Lemma patch_result_raise names theta infer sc rec e :
  (patch_result names theta infer sc rec).2 = Raise e →
  e = IndexError
  ∨ ∃ k, k ∈ names ∧ contains "meal" k = false ∧ Series_attr k = Refuses e.
Proof.
  unfold patch_result.
  destruct (meal_values_of names theta); [|intros [= <-]; by left].
  destruct (other_values_of names theta) as [ov|]; [|intros [= <-]; by left].
  cbv zeta.
  assert ((set_attrs_upto rec (zip (non_meal_of names).*2 ov)).2 = Raise e →
          ∃ k, k ∈ names ∧ contains "meal" k = false ∧ Series_attr k = Refuses e)
    as Hup.
  { intros (k & Hk & He)%set_attrs_upto_raise. exists k.
    apply list_elem_of_fmap in Hk as ([k' v] & -> & Hin).
    apply elem_of_zip_l, list_elem_of_fmap in Hin as ([i k''] & -> & Hin).
    apply non_meal_of_spec in Hin as [Hi Hc]. simpl in *.
    split; [by eapply list_elem_of_lookup_2|done]. }
  destruct (patches_meals infer names); [destruct (decide _)|]; simpl.
  - intros H. right. by apply Hup.
  - intros [= <-]. by left.
  - intros H. right. by apply Hup.
Qed.

Lemma alter_meal_patch_idem (m : gmap loc (list meal)) l mv :
  alter (λ sc, meal_patch sc mv) l (alter (λ sc, meal_patch sc mv) l m)
  = alter (λ sc, meal_patch sc mv) l m.
Proof.
  apply map_eq. intros l'. destruct (decide (l = l')) as [<-|Hne].
  - rewrite !lookup_alter_eq. destruct (m !! l); simpl; [|done].
    by rewrite meal_patch_idem.
  - by rewrite !lookup_alter_ne.
Qed.

(** X6.  [set_custom_params] touches the two objects of the environment it
    is given and nothing else: every other list and record is as it was,
    no object disappears, no event happens.  If it raises, it raises
    [IndexError], or what the class of the record raises for one of the
    names without "meal". *)
Theorem patch_touches_its_own_objects_only (o : SimObj) (theta : list float)
    (ip : InferredParams) (infer : bool) (s : state) :
  (∀ l, l ≠ sloc o → lists (set_custom_params o theta ip infer s).1 !! l = lists s !! l)
  ∧ (∀ l, l ≠ ploc o →
       series (set_custom_params o theta ip infer s).1 !! l = series s !! l)
  ∧ dom (lists (set_custom_params o theta ip infer s).1) = dom (lists s)
  ∧ dom (series s) ⊆ dom (series (set_custom_params o theta ip infer s).1)
  ∧ trace (set_custom_params o theta ip infer s).1 = trace s
  ∧ (∀ e, (set_custom_params o theta ip infer s).2 = Raise e →
          e = IndexError
          ∨ ∃ k, k ∈ params_names ip ∧ contains "meal" k = false
                 ∧ Series_attr k = Refuses e).
Proof.
  split; [intros l Hl; by apply set_custom_params_lists_frame|].
  split; [intros l Hl; by apply set_custom_params_series_frame|].
  split; [apply set_custom_params_dom_lists|].
  split; [apply set_custom_params_dom_series|].
  split; [apply set_custom_params_trace|].
  intros e. rewrite set_custom_params_outcome. apply patch_result_raise.
Qed.

(** X7.  Patching is idempotent: once [set_custom_params] has ended
    normally, the same call again ends normally and changes nothing. *)
Theorem set_custom_params_idempotent (o : SimObj) (theta : list float)
    (ip : InferredParams) (infer : bool) (s s1 : state) :
  set_custom_params o theta ip infer s = (s1, Ok tt) →
  set_custom_params o theta ip infer s1 = (s1, Ok tt).
Proof.
  rewrite !set_custom_params_eq.
  destruct (meal_values_of _ theta) as [mv|]; [|done].
  destruct (other_values_of _ theta) as [ov|]; [|done].
  destruct (patches_meals infer _).
  - cbv zeta. destruct (decide (length (lists s !!! sloc o) ≤ length mv)) as [Hle|];
      [|done].
    set (sA := State (alter (λ sc, meal_patch sc mv) (sloc o) (lists s))
                 (series s) (trace s)).
    intros Hrun.
    assert (lists s1 = lists sA) as Hl.
    { apply (f_equal fst) in Hrun. simpl in Hrun. rewrite <- Hrun.
      rewrite _update_patient_parameters_eq. simpl. by destruct (writes _). }
    rewrite Hl. simpl. rewrite alter_meal_patch_total, meal_patch_length.
    rewrite decide_True by done. rewrite alter_meal_patch_idem.
    change (alter (λ sc, meal_patch sc mv) (sloc o) (lists s)) with (lists sA).
    rewrite <- Hl, state_eta.
    pose proof (f_equal snd Hrun) as Hok. apply (f_equal fst) in Hrun.
    simpl in Hrun, Hok. rewrite <- Hrun.
    by apply _update_patient_parameters_idem.
  - intros Hrun.
    pose proof (f_equal snd Hrun) as Hok. apply (f_equal fst) in Hrun.
    simpl in Hrun, Hok. rewrite <- Hrun.
    by apply _update_patient_parameters_idem.
Qed.


(** X8.  With [infer_meal_params] false the columns under a name with
    "meal" are dead: two rows that cover the names and agree under every
    other name give the same call, whatever they hold under the meal
    names. *)
Theorem meal_columns_ignored_when_not_inferring (o : SimObj) (theta theta' : list float)
    (ip : InferredParams) (s : state) :
  length (params_names ip) ≤ length theta →
  length (params_names ip) ≤ length theta' →
  (∀ i n, params_names ip !! i = Some n → contains "meal" n = false →
          theta !! i = theta' !! i) →
  set_custom_params o theta ip false s = set_custom_params o theta' ip false s.
Proof.
  intros Hlen Hlen' Hsame. rewrite !set_custom_params_eq.
  destruct (meal_values_of_is_Some _ _ Hlen) as [mv ->].
  destruct (meal_values_of_is_Some _ _ Hlen') as [mv' ->].
  assert (other_values_of (params_names ip) theta
          = other_values_of (params_names ip) theta') as ->.
  { apply Forall_mapM_ext, Forall_forall. intros [i n] [Hn Hc]%non_meal_of_spec.
    simpl. by eapply Hsame. }
  reflexivity.
Qed.


(** ** The factory, copy by copy *)

Lemma patched_alone_is_Some pp d ip infer row s :
  within_index pp s d →
  is_Some (patched_alone pp d ip infer row s) ↔
  (patch_result (params_names ip) row infer
     (lists s !!! sloc d) (series s !!! ploc d)).2 = Ok tt.
Proof.
  intros Hin. unfold patched_alone.
  destruct (custom_sim_env_for_eq pp d ip infer row s) as (-> & _).
  destruct (custom_sim_env_for_patch pp d ip infer row s Hin) as (Hout & _).
  cbv zeta in Hout. rewrite Hout.
  destruct (patch_result _ _ _ _ _).2 as [[]|e]; split; done.
Qed.

Lemma comprehension_custom_outcome pp d ip infer s1 theta s :
  ploc d ∈ dom (series s1) → sloc d ∈ dom (lists s1) → within_index pp s1 d →
  extends s1 s →
  ((∃ envs, (comprehension (custom_sim_env_for pp d ip infer) theta s).2 = Ok envs) →
   Forall (λ row, (patch_result (params_names ip) row infer
                     (lists s1 !!! sloc d) (series s1 !!! ploc d)).2 = Ok tt) theta)
  ∧ (∀ e, (comprehension (custom_sim_env_for pp d ip infer) theta s).2 = Raise e →
          ∃ row, row ∈ theta
                 ∧ (patch_result (params_names ip) row infer
                      (lists s1 !!! sloc d) (series s1 !!! ploc d)).2 = Raise e).
Proof.
  intros Hp Hs Hin. revert s. induction theta as [|row theta IH]; intros s Hext.
  - split; [by constructor|done].
  - destruct (custom_sim_env_for_eq pp d ip infer row s) as (Heq & Hext2 & _).
    destruct (custom_sim_env_for_patch pp d ip infer row s) as (Hout & _).
    { by eapply within_index_extends. }
    pose proof (extends_snapshot _ _ d Hext Hp Hs) as Hd.
    assert (lists s !!! sloc d = lists s1 !!! sloc d) as Hsc.
    { by apply (f_equal snap_scenario) in Hd. }
    assert (series s !!! ploc d = series s1 !!! ploc d) as Hpc.
    { by apply (f_equal snap_params) in Hd. }
    cbv zeta in Hout. rewrite Hsc, Hpc in Hout. rewrite Hout in Heq.
    simpl. unfold bind at 1 3. rewrite Heq.
    destruct (patch_result (params_names ip) row infer _ _).2 as [[]|e0] eqn:Hrow.
    + destruct (IH (set_custom_params
                      (copy_at d (fresh (dom (series s))) (fresh (dom (lists s))))
                      row ip infer (deepcopy pp d s).1).1) as [IHok IHraise];
        [by etrans|].
      unfold bind.
      destruct (comprehension _ theta _) as [s3 [envs|e]]; simpl in *.
      * split; [|done]. intros _. constructor; [done|]. apply IHok. by eexists.
      * split; [by intros [envs' ?]|]. intros e' [= <-].
        destruct (IHraise e eq_refl) as (row' & Hrow' & He).
        exists row'. split; [by right|done].
    + simpl. split; [by intros [envs ?]|].
      intros e [= <-]. exists row. split; [left|done].
Qed.

Lemma comprehension_custom_fresh pp d ip infer theta s s' envs :
  comprehension (custom_sim_env_for pp d ip infer) theta s = (s', Ok envs) →
  Forall (λ e, (sloc e ∉ dom (lists s)) ∧ (ploc e ∉ dom (series s))
               ∧ sloc e ∈ dom (lists s') ∧ ploc e ∈ dom (series s')) envs
  ∧ NoDup (sloc <$> envs) ∧ NoDup (ploc <$> envs).
Proof.
  revert s envs. induction theta as [|row theta IH]; intros s envs Hrun.
  - injection Hrun as <- <-. repeat split; constructor.
  - destruct (custom_sim_env_for_eq pp d ip infer row s) as (Heq & Hext & Hcs & Hcp).
    set (c := copy_at d (fresh (dom (series s))) (fresh (dom (lists s)))) in *.
    set (s2 := (set_custom_params c row ip infer (deepcopy pp d s).1).1) in *.
    simpl in Hrun. unfold bind at 1 in Hrun. rewrite Heq in Hrun.
    destruct (set_custom_params c row ip infer (deepcopy pp d s).1).2 as [[]|e0];
      [|done].
    unfold bind at 1 in Hrun.
    pose proof (comprehension_custom_extends pp d ip infer theta s2) as Hext'.
    destruct (comprehension _ theta s2) as [s3 [envs'|e]] eqn:Hrest; [|done].
    injection Hrun as <- <-. simpl in Hext'.
    destruct (IH s2 envs' Hrest) as (Hall & Hnd1 & Hnd2).
    split; [|split].
    + constructor.
      * split; [apply is_fresh|]. split; [apply is_fresh|].
        split; [by eapply extends_dom_lists|by eapply extends_dom_series].
      * eapply Forall_impl; [exact Hall|]. intros e (H1 & H2 & H3 & H4).
        split; [|split; [|done]].
        -- intros Hin. apply H1. by eapply extends_dom_lists.
        -- intros Hin. apply H2. by eapply extends_dom_series.
    + rewrite fmap_cons. apply NoDup_cons. split; [|done].
      intros (e & Heq' & Hin)%list_elem_of_fmap.
      rewrite Forall_forall in Hall. destruct (Hall e Hin) as (H1 & _).
      apply H1. by rewrite <- Heq'.
    + rewrite fmap_cons. apply NoDup_cons. split; [|done].
      intros (e & Heq' & Hin)%list_elem_of_fmap.
      rewrite Forall_forall in Hall. destruct (Hall e Hin) as (_ & H2 & _).
      apply H2. by rewrite <- Heq'.
Qed.

Lemma lookup_total_frame {A} `{!Inhabited A} (m m' : gmap loc A) l :
  m' !! l = m !! l → m' !!! l = m !!! l.
Proof. intros H. by rewrite !lookup_total_alt, H. Qed.

(** X9.  A deep copy is independent of its original, both ways.  Its two
    objects are new ones; its scenario is the original's, and its record
    holds the original's entry under every label of the index, and none of
    the attributes that [setattr] bound on the original outside the index
    under a name the class knows nothing of.  Taking the copy changes
    nothing of the original; patching the copy afterwards leaves the
    original as it was, and patching the original leaves the copy as it
    was. *)
Theorem deepcopy_is_independent (patient_params : string → gmap string pyval)
    (o : SimObj) (s : state) :
  is_Some (lists s !! sloc o) → is_Some (series s !! ploc o) →
  ∃ s' c,
    deepcopy patient_params o s = (s', Ok c)
    ∧ lists s' !!! sloc c = lists s !!! sloc o
    ∧ (∀ k, k ∈ Series_index patient_params (pat_name (patient (env o))) →
            (series s' !!! ploc c) !! k = (series s !!! ploc o) !! k)
    ∧ (∀ k, k ∉ Series_index patient_params (pat_name (patient (env o))) →
            Series_attr k = NoAttribute →
            (series s' !!! ploc c) !! k = None)
    ∧ snapshot_of s' o = snapshot_of s o
    ∧ (sloc c ∉ dom (lists s)) ∧ (ploc c ∉ dom (series s))
    ∧ (∀ theta ip infer,
         snapshot_of (set_custom_params c theta ip infer s').1 o = snapshot_of s o)
    ∧ (∀ theta ip infer,
         snapshot_of (set_custom_params o theta ip infer s').1 c = snapshot_of s' c).
Proof.
  intros Hl Hp. apply elem_of_dom in Hl, Hp.
  exists (deepcopy patient_params o s).1,
         (copy_at o (fresh (dom (series s))) (fresh (dom (lists s)))).
  pose proof (deepcopy_extends patient_params o s) as Hext.
  assert (deepcopy patient_params o s
          = ((deepcopy patient_params o s).1,
             Ok (copy_at o (fresh (dom (series s))) (fresh (dom (lists s))))))
    as Heq by by rewrite deepcopy_eq.
  set (c := copy_at o (fresh (dom (series s))) (fresh (dom (lists s)))) in *.
  pose proof (extends_snapshot s _ o Hext Hp Hl) as Ho.
  assert (sloc c ∉ dom (lists s)) as Hfl by apply is_fresh.
  assert (ploc c ∉ dom (series s)) as Hfp by apply is_fresh.
  assert (sloc o ≠ sloc c) as Hnl by (intros Heq'; by rewrite Heq' in Hl).
  assert (ploc o ≠ ploc c) as Hnp by (intros Heq'; by rewrite Heq' in Hp).
  split; [done|]. split; [|split; [|split]].
  - rewrite deepcopy_eq. simpl. by rewrite lookup_total_insert_eq.
  - intros k Hk. rewrite deepcopy_eq. simpl. rewrite lookup_total_insert_eq.
    destruct ((series s !!! ploc o) !! k) as [v|] eqn:Hv.
    + by apply map_lookup_filter_Some.
    + apply map_lookup_filter_None. by left.
  - intros k Hk _. rewrite deepcopy_eq. simpl. rewrite lookup_total_insert_eq.
    apply map_lookup_filter_None. right. intros v _. done.
  - split; [done|]. split; [done|]. split; [done|]. split.
    + intros theta ip infer. rewrite <- Ho. unfold snapshot_of.
      fold (ploc o). fold (sloc o).
      rewrite (lookup_total_frame (series (deepcopy patient_params o s).1))
        by by apply set_custom_params_series_frame.
      by rewrite (lookup_total_frame (lists (deepcopy patient_params o s).1))
        by by apply set_custom_params_lists_frame.
    + intros theta ip infer. unfold snapshot_of.
      fold (ploc c). fold (sloc c).
      rewrite (lookup_total_frame (series (deepcopy patient_params o s).1))
        by by apply set_custom_params_series_frame.
      by rewrite (lookup_total_frame (lists (deepcopy patient_params o s).1))
        by by apply set_custom_params_lists_frame.
Qed.

(** X10.  The environments of a batch share no mutable object: their
    scenario lists are pairwise different objects, so are their parameter
    records, and none of them is an object that existed before the call,
    the caller's scenario list in particular, or an object of the default
    environment. *)
Theorem batch_environments_share_nothing (patient_params : string → gmap string pyval)
    (theta : list (list float)) (settings : DeafultSimulationEnv)
    (ip : InferredParams) (hours : Z) (infer : bool) (now : datetime)
    (s0 s' : state) (envs : list SimObj) :
  is_Some (lists s0 !! scenario settings) →
  create_simulation_envs_with_custom_params patient_params theta settings ip
    hours infer now s0 = (s', Ok envs) →
  NoDup (sloc <$> envs) ∧ NoDup (ploc <$> envs)
  ∧ Forall (λ e, sloc e ≠ scenario settings
                 ∧ (sloc e ∉ dom (lists s0)) ∧ (ploc e ∉ dom (series s0))) envs
  ∧ ∀ s1 d,
      load_default_simulation_env patient_params settings hours now s0 = (s1, Ok d) →
      Forall (λ e, sloc e ≠ sloc d ∧ ploc e ≠ ploc d) envs.
Proof.
  intros Hlive Hrun.
  unfold create_simulation_envs_with_custom_params in Hrun.
  unfold bind in Hrun.
  destruct (load_default_simulation_env patient_params settings hours now s0)
    as [s1 [d|e]] eqn:Hload; [|done].
  destruct (load_default_simulation_env_spec _ _ _ _ _ _ _ Hload)
    as (_ & Hext & Hlists & Hp & Hs & _).
  destruct (comprehension_custom_fresh patient_params d ip infer theta s1 s' envs Hrun)
    as (Hall & Hnd1 & Hnd2).
  apply elem_of_dom in Hlive.
  split; [done|]. split; [done|]. split.
  - eapply Forall_impl; [exact Hall|]. intros e (H1 & H2 & _).
    rewrite Hlists in H1. split; [|split; [done|]].
    + intros Heq. by rewrite Heq in H1.
    + intros Hin. apply H2. by eapply extends_dom_series.
  - intros s1' d' [= <- <-].
    eapply Forall_impl; [exact Hall|]. intros e (H1 & H2 & _).
    split.
    + intros Heq. rewrite Heq, Hs, Hlists in H1. done.
    + intros Heq. by rewrite Heq in H2.
Qed.


(** X11.  Once the default environment is built, the factory returns a
    list exactly when every row, applied alone to a deep copy of the
    default environment, patches without error; the first bad row stops
    it.  What it then raises is [IndexError], or what the class of the
    record raises for one of the names without "meal". *)
Theorem factory_returns_iff_rows_patch (patient_params : string → gmap string pyval)
    (theta : list (list float)) (settings : DeafultSimulationEnv)
    (ip : InferredParams) (hours : Z) (infer : bool) (now : datetime)
    (s0 s1 : state) (d : SimObj) :
  is_Some (lists s0 !! scenario settings) →
  load_default_simulation_env patient_params settings hours now s0 = (s1, Ok d) →
  ((∃ envs, (create_simulation_envs_with_custom_params patient_params theta
               settings ip hours infer now s0).2 = Ok envs) ↔
   Forall (λ row, is_Some (patched_alone patient_params d ip infer row s1)) theta)
  ∧ (∀ e, (create_simulation_envs_with_custom_params patient_params theta
             settings ip hours infer now s0).2 = Raise e →
          e = IndexError
          ∨ ∃ k, k ∈ params_names ip ∧ contains "meal" k = false
                 ∧ Series_attr k = Refuses e).
Proof.
  intros Hlive Hload.
  destruct (load_default_simulation_env_spec _ _ _ _ _ _ _ Hload)
    as (_ & Hext & Hlists & Hp & Hs & _ & Hin).
  assert (sloc d ∈ dom (lists s1)) as Hslive.
  { rewrite Hs, Hlists. by apply elem_of_dom. }
  unfold create_simulation_envs_with_custom_params.
  erewrite bind_ok by exact Hload.
  destruct (comprehension_custom_outcome patient_params d ip infer s1 theta s1
              Hp Hslive Hin) as [Hok Hraise]; [done|].
  split; [split|].
  - intros Hex. eapply Forall_impl; [exact (Hok Hex)|].
    intros row Hrow. by apply (patched_alone_is_Some patient_params d ip infer row s1).
  - intros Hall.
    destruct (comprehension_custom_rows patient_params d ip infer s1 theta s1
                Hp Hslive Hin) as (s' & envs & -> & _); [done| |by eexists].
    eapply Forall_impl; [exact Hall|]. intros row Hrow.
    by apply (patched_alone_is_Some patient_params d ip infer row s1).
  - intros e He. destruct (Hraise e He) as (row & _ & Hrow).
    by eapply patch_result_raise.
Qed.

Lemma patch_snapshot_no_names row infer sn : patch_snapshot [] row infer sn = sn.
Proof. destruct sn. by destruct infer. Qed.

(** X12.  With no inferred name at all the factory patches nothing: once
    the default environment is built, it returns one environment per row,
    whatever the rows hold, and each is an exact copy of the default
    environment. *)
Theorem no_names_gives_copies_of_the_default
    (patient_params : string → gmap string pyval) (theta : list (list float))
    (settings : DeafultSimulationEnv) (ip : InferredParams) (hours : Z)
    (infer : bool) (now : datetime) (s0 s1 : state) (d : SimObj) :
  params_names ip = [] →
  is_Some (lists s0 !! scenario settings) →
  load_default_simulation_env patient_params settings hours now s0 = (s1, Ok d) →
  ∃ s' envs,
    create_simulation_envs_with_custom_params patient_params theta settings ip
      hours infer now s0 = (s', Ok envs)
    ∧ length envs = length theta
    ∧ Forall (λ e, snapshot_of s' e = snapshot_of s1 d) envs.
Proof.
  intros Hnames Hlive Hload.
  destruct (load_default_simulation_env_spec _ _ _ _ _ _ _ Hload)
    as (_ & Hext & Hlists & Hp & Hs & _ & Hin).
  assert (sloc d ∈ dom (lists s1)) as Hslive.
  { rewrite Hs, Hlists. by apply elem_of_dom. }
  destruct (comprehension_custom_rows patient_params d ip infer s1 theta s1
              Hp Hslive Hin) as (s' & envs & Hrun & _ & Hlen & Hall); [done| |].
  { apply Forall_forall. intros row _. rewrite Hnames. by destruct infer. }
  exists s', envs. split; [|split; [done|]].
  - unfold create_simulation_envs_with_custom_params.
    by erewrite bind_ok by exact Hload.
  - apply Forall_forall. intros e [i Hi]%list_elem_of_lookup.
    destruct (lookup_lt_is_Some_2 theta i) as [row Hrow].
    { rewrite <- Hlen. by eapply lookup_lt_Some. }
    rewrite (Hall i row e Hrow Hi), Hnames. by rewrite patch_snapshot_no_names.
Qed.

(** ** The runner and the orchestrator *)

Lemma create_simulation_envs_trace pp theta settings ip hours infer now s :
  trace (create_simulation_envs_with_custom_params pp theta settings ip hours infer
           now s).1 = trace s.
Proof.
  unfold create_simulation_envs_with_custom_params, bind.
  destruct (load_default_simulation_env pp settings hours now s) as [s1 [d|e]] eqn:Hload.
  - destruct (load_default_simulation_env_spec _ _ _ _ _ _ _ Hload)
      as (_ & (_ & _ & Ht) & _).
    destruct (comprehension_custom_extends pp d ip infer theta s1) as (_ & _ & Ht').
    congruence.
  - destruct (load_error settings hours) as [e'|] eqn:Herr.
    + destruct (load_default_simulation_env_raise pp settings hours now s e' Herr)
        as (_ & _ & _ & Ht).
      by rewrite Hload in Ht.
    + by rewrite load_default_simulation_env_eq in Hload.
Qed.

Lemma run_glucose_simulator_eq pp cgm oracle theta settings ip hours device infer
    logger now s :
  run_glucose_simulator pp cgm oracle theta settings ip hours device infer logger now s
  = let s0 := (log_info logger "Running the glucose simulator on theta of shape, %s"
                 s).1 in
    match create_simulation_envs_with_custom_params pp theta settings ip hours infer
            now s0 with
    | (s1, Ok envs) => simulate_batch cgm oracle envs device logger s1
    | (s1, Raise e) => (s1, Raise e)
    end.
Proof. unfold run_glucose_simulator, bind. by destruct logger. Qed.

(** X13.  [simulate_batch] is all or nothing, for every completion order
    of the pool.  It ends in [SimulationFailure] exactly when the run of
    some environment of the batch fails; it returns a tensor exactly when
    the batch is not empty, every run succeeds and all series have one
    length; and a tensor it returns has one row per environment. *)
Theorem simulate_batch_all_or_nothing (cgm_of_run : snapshot → option (list float))
    (oracle : list nat) (simulations : list SimObj) (device : torch_device)
    (logger : bool) (s : state) :
  ((simulate_batch cgm_of_run oracle simulations device logger s).2
   = Raise SimulationFailure ↔
   ∃ o, o ∈ simulations ∧ cgm_of_run (snapshot_of s o) = None)
  ∧ ((∃ t, (simulate_batch cgm_of_run oracle simulations device logger s).2 = Ok t) ↔
     simulations ≠ []
     ∧ ∃ n, Forall (λ o, ∃ r, cgm_of_run (snapshot_of s o) = Some r ∧ length r = n)
              simulations)
  ∧ (∀ t, (simulate_batch cgm_of_run oracle simulations device logger s).2 = Ok t →
          length (tensor_data t) = length simulations).
Proof.
  unfold simulate_batch. rewrite simulate_batch_with_outcome.
  destruct (readings_of cgm_of_run s simulations) as [rs|] eqn:Hrs.
  - pose proof Hrs as Hf2. apply mapM_Some in Hf2.
    pose proof (Forall2_length _ _ _ Hf2) as Hlen.
    split; [|split].
    + split; [by destruct rs as [|a rest]; [|destruct (forallb _ rest)]|].
      intros (o & Ho & Hnone).
      apply list_elem_of_lookup in Ho as [i Hi].
      destruct (Forall2_lookup_l _ _ _ _ _ Hf2 Hi) as (r & _ & Hr). congruence.
    + destruct rs as [|a rest].
      * split; [by intros [t ?]|]. intros [Hne _].
        destruct simulations; [done|simpl in Hlen; lia].
      * destruct (forallb (λ b, Nat.eqb (length b) (length a)) rest) eqn:Hall.
        -- split; [|by eexists]. intros _. split.
           { intros ->. simpl in Hlen. lia. }
           exists (length a). apply Forall_forall. intros o [i Hi]%list_elem_of_lookup.
           destruct (Forall2_lookup_l _ _ _ _ _ Hf2 Hi) as (r & Hri & Hr).
           exists r. split; [done|].
           destruct i as [|i]; simpl in Hri; [by injection Hri as <-|].
           rewrite forallb_forall in Hall. apply Nat.eqb_eq, Hall, list_elem_of_In.
           by eapply list_elem_of_lookup_2.
        -- split; [by intros [t ?]|]. intros [_ [n Hn]]. exfalso.
           assert (forallb (λ b, Nat.eqb (length b) (length a)) rest = true) as Htrue;
             [|congruence].
           assert (∀ r, r ∈ a :: rest → length r = n) as Hrn.
           { intros r [i Hi]%list_elem_of_lookup.
             destruct (Forall2_lookup_r _ _ _ _ _ Hf2 Hi) as (o & Hoi & Hr).
             rewrite Forall_forall in Hn.
             destruct (Hn o) as (r' & Hr' & <-); [by eapply list_elem_of_lookup_2|].
             congruence. }
           apply forallb_forall. intros b Hb%list_elem_of_In. apply Nat.eqb_eq.
           rewrite (Hrn a) by left. apply Hrn. by right.
    + destruct rs as [|a rest]; [done|]. destruct (forallb _ rest); [|done].
      intros t [= <-]. simpl. rewrite length_map. simpl in *. lia.
  - split; [|split; [|done]].
    + split; [|done]. intros _. apply mapM_None in Hrs.
      apply Exists_exists in Hrs as (o & Ho & Hnone). eauto.
    + split; [by intros [t ?]|]. intros [_ [n Hn]]. exfalso.
      apply mapM_None in Hrs. apply Exists_exists in Hrs as (o & Ho & Hnone).
      rewrite Forall_forall in Hn. destruct (Hn o Ho) as (r & Hr & _). congruence.
Qed.

(** X14.  Row i of the tensor returned by [simulate_batch] is the series
    of readings of the i-th environment of the batch, rounded to float32,
    whatever the order in which the workers of the pool finish. *)
Theorem simulate_batch_rows_in_dispatch_order
    (cgm_of_run : snapshot → option (list float)) (oracle : list nat)
    (simulations : list SimObj) (device : torch_device) (logger : bool)
    (s : state) (t : Tensor) :
  (simulate_batch cgm_of_run oracle simulations device logger s).2 = Ok t →
  ∀ i o, simulations !! i = Some o →
         ∃ r, cgm_of_run (snapshot_of s o) = Some r
              ∧ tensor_data t !! i = Some (map to_float32 r).
Proof.
  unfold simulate_batch. rewrite simulate_batch_with_outcome.
  destruct (readings_of cgm_of_run s simulations) as [rs|] eqn:Hrs; [|done].
  apply mapM_Some in Hrs.
  assert (Ok (MkTensor (map (map to_float32) rs) float32 device) = Ok t →
          ∀ i o, simulations !! i = Some o →
                 ∃ r, cgm_of_run (snapshot_of s o) = Some r
                      ∧ tensor_data t !! i = Some (map to_float32 r)) as Hgoal.
  { intros [= <-] i o Hi.
    destruct (Forall2_lookup_l _ _ _ _ _ Hrs Hi) as (r & Hri & Hr).
    exists r. split; [done|]. simpl.
    change (map (map to_float32) rs) with (map to_float32 <$> rs).
    by rewrite list_lookup_fmap, Hri. }
  destruct rs as [|a rest]; [done|]. by destruct (forallb _ rest).
Qed.


(** X15.  When [run_glucose_simulator] ends in [IndexError], nothing has
    been simulated and the pool has never been entered: the only event, if
    there is a logger, is the first log line.  The batch is built in full
    before the first run starts. *)
Theorem index_error_means_nothing_ran (patient_params : string → gmap string pyval)
    (cgm_of_run : snapshot → option (list float)) (oracle : list nat)
    (theta : list (list float)) (settings : DeafultSimulationEnv)
    (ip : InferredParams) (hours : Z) (device : torch_device) (infer : bool)
    (logger : bool) (now : datetime) (s : state) :
  (run_glucose_simulator patient_params cgm_of_run oracle theta settings ip hours
     device infer logger now s).2 = Raise IndexError →
  trace (run_glucose_simulator patient_params cgm_of_run oracle theta settings ip
           hours device infer logger now s).1
  = trace s
    ++ (if logger
        then [LogInfo "Running the glucose simulator on theta of shape, %s"]
        else []).
Proof.
  rewrite run_glucose_simulator_eq. cbv zeta.
  pose proof (create_simulation_envs_trace patient_params theta settings ip hours
                infer now
                (log_info logger "Running the glucose simulator on theta of shape, %s"
                   s).1) as Htr.
  assert (trace (log_info logger "Running the glucose simulator on theta of shape, %s"
                   s).1
          = trace s
            ++ (if logger
                then [LogInfo "Running the glucose simulator on theta of shape, %s"]
                else [])) as Ht0.
  { destruct logger; simpl; [done|]. by rewrite app_nil_r. }
  destruct (create_simulation_envs_with_custom_params _ _ _ _ _ _ _ _)
    as [s1 [envs|e]]; simpl in *.
  - pose proof (simulate_batch_with_outcome cgm_of_run true oracle envs device
                  logger s1) as Hout.
    unfold simulate_batch. intros Hraise. rewrite Hraise in Hout.
    destruct (readings_of cgm_of_run s1 envs) as [[|a rest]|]; try done.
    by destruct (forallb _ rest).
  - intros _. by rewrite Htr.
Qed.


(** X16.  End to end.  Let the caller's scenario list be a live object,
    and let [d] be the default environment built from the settings.  If,
    for every row of the matrix, a deep copy of [d] patched with that row
    alone is an environment whose run succeeds, and the series so obtained
    have one length, then [run_glucose_simulator] returns the tensor whose
    i-th row is the i-th of these series, rounded to float32, on the device
    asked for: by any completion order of the pool, with or without a
    logger. *)
Theorem run_glucose_simulator_end_to_end
    (patient_params : string → gmap string pyval)
    (cgm_of_run : snapshot → option (list float)) (oracle : list nat)
    (theta : list (list float)) (settings : DeafultSimulationEnv)
    (ip : InferredParams) (hours : Z) (device : torch_device) (infer : bool)
    (logger : bool) (now : datetime) (s s1 : state) (d : SimObj)
    (a : list float) (rest : list (list float)) :
  is_Some (lists s !! scenario settings) →
  load_default_simulation_env patient_params settings hours now s = (s1, Ok d) →
  mapM (λ row, patched_alone patient_params d ip infer row s1 ≫= cgm_of_run) theta
  = Some (a :: rest) →
  Forall (λ b, length b = length a) rest →
  (run_glucose_simulator patient_params cgm_of_run oracle theta settings ip hours
     device infer logger now s).2
  = Ok (MkTensor (map (map to_float32) (a :: rest)) float32 device).
Proof.
  intros Hlive Hload Hreadings Hlen.
  rewrite run_glucose_simulator_eq. cbv zeta.
  set (s0 := (log_info logger "Running the glucose simulator on theta of shape, %s"
                s).1).
  assert (lists s0 = lists s ∧ series s0 = series s) as [Hl0 Hs0].
  { subst s0. by destruct logger. }
  destruct (load_default_simulation_env_spec _ _ _ _ _ _ _ Hload)
    as (Herr & _ & _ & _ & _ & Hsnap & Hin).
  destruct (proj1 (load_default_simulation_env_returns patient_params settings hours
                     now s0) Herr) as (t1 & d0 & Hload0).
  destruct (load_default_simulation_env_spec _ _ _ _ _ _ _ Hload0)
    as (_ & Hext0 & Hlists0 & Hp0 & Hsl0 & Hsnap0 & Hin0).
  assert (snapshot_of t1 d0 = snapshot_of s1 d) as Hbase.
  { rewrite Hsnap, Hsnap0. by rewrite Hl0. }
  assert (sloc d0 ∈ dom (lists t1)) as Hslive.
  { rewrite Hsl0, Hlists0, Hl0. by apply elem_of_dom. }
  assert (∀ row, row ∈ theta →
            (patch_result (params_names ip) row infer
               (lists s1 !!! sloc d) (series s1 !!! ploc d)).2 = Ok tt) as Hok.
  { intros row [i Hi]%list_elem_of_lookup.
    apply mapM_Some in Hreadings.
    destruct (Forall2_lookup_l _ _ _ _ _ Hreadings Hi) as (r & _ & Hr).
    apply (patched_alone_is_Some patient_params); [done|].
    destruct (patched_alone patient_params d ip infer row s1); [by eexists|done]. }
  assert (lists t1 !!! sloc d0 = lists s1 !!! sloc d) as Hsc
    by by apply (f_equal snap_scenario) in Hbase.
  assert (series t1 !!! ploc d0 = series s1 !!! ploc d) as Hpc
    by by apply (f_equal snap_params) in Hbase.
  destruct (comprehension_custom_rows patient_params d0 ip infer t1 theta t1
              Hp0 Hslive Hin0) as (s' & envs & Hrun & _ & Hlenv & Hall); [done| |].
  { apply Forall_forall. intros row Hrow. rewrite Hsc, Hpc. by apply Hok. }
  unfold create_simulation_envs_with_custom_params.
  erewrite bind_ok by exact Hload0. rewrite Hrun.
  unfold simulate_batch. rewrite simulate_batch_with_outcome.
  assert (readings_of cgm_of_run s' envs = Some (a :: rest)) as ->.
  { apply mapM_Some in Hreadings. unfold readings_of.
    apply mapM_Some, Forall2_same_length_lookup_2.
    { rewrite Hlenv. by eapply Forall2_length. }
    intros i e r He Hr.
    destruct (lookup_lt_is_Some_2 theta i) as [row Hrow].
    { rewrite <- Hlenv. by eapply lookup_lt_Some. }
    pose proof (Forall2_lookup_lr _ _ _ _ _ _ Hreadings Hrow Hr) as Hrr.
    simpl in Hrr.
    rewrite patched_alone_eq in Hrr
      by (done || apply Hok; by eapply list_elem_of_lookup_2).
    by rewrite (Hall i row e Hrow He), Hbase. }
  assert (forallb (λ b, Nat.eqb (length b) (length a)) rest = true) as ->; [|done].
  apply forallb_forall. intros b Hb%list_elem_of_In.
  rewrite Forall_forall in Hlen. apply Nat.eqb_eq. by apply Hlen.
Qed.


(** X17.  An empty parameter matrix makes [run_glucose_simulator] raise
    [ValueError], provided the default environment can be built: the
    factory returns the empty list, the pool is still entered and its map
    called, on no task, and stacking no series fails. *)
Theorem empty_matrix_raises_ValueError (patient_params : string → gmap string pyval)
    (cgm_of_run : snapshot → option (list float)) (oracle : list nat)
    (settings : DeafultSimulationEnv) (ip : InferredParams) (hours : Z)
    (device : torch_device) (infer : bool) (logger : bool) (now : datetime)
    (s s1 : state) (d : SimObj) :
  load_default_simulation_env patient_params settings hours now s = (s1, Ok d) →
  (run_glucose_simulator patient_params cgm_of_run oracle [] settings ip hours
     device infer logger now s).2 = Raise ValueError
  ∧ PoolEnter ∈ trace (run_glucose_simulator patient_params cgm_of_run oracle []
                         settings ip hours device infer logger now s).1
  ∧ PoolMap 0 ∈ trace (run_glucose_simulator patient_params cgm_of_run oracle []
                         settings ip hours device infer logger now s).1.
Proof.
  intros Hload.
  destruct (load_default_simulation_env_spec _ _ _ _ _ _ _ Hload) as (Herr & _).
  rewrite run_glucose_simulator_eq. cbv zeta.
  unfold create_simulation_envs_with_custom_params, bind.
  rewrite load_default_simulation_env_eq by done.
  destruct logger; simpl.
  all: split; [done|]; rewrite !elem_of_app, !elem_of_cons; naive_solver.
Qed.

(** X18.  The loop of [_update_patient_parameters] stops at the first name
    the class of the record refuses, and by then the names before it have
    been bound: what is raised is the class's exception for that name, the
    record holds the values of the names before it, and no name after it
    has been assigned. *)
Theorem update_patient_stops_at_refused_name (p : T1DPatient) (pre post : list string)
    (k : string) (e : exn) (values : list float) (s : state) :
  Forall (λ n, Series_attr n = NoAttribute) pre →
  Series_attr k = Refuses e →
  length pre < length values →
  (_update_patient_parameters p (pre ++ k :: post) values s).2 = Raise e
  ∧ series (_update_patient_parameters p (pre ++ k :: post) values s).1 !!! _params p
    = set_attrs (series s !!! _params p) (zip pre values)
  ∧ (∀ n, n ∉ pre →
       (series (_update_patient_parameters p (pre ++ k :: post) values s).1
          !!! _params p) !! n
       = (series s !!! _params p) !! n).
Proof.
  intros Hpre Hk Hlen.
  rewrite _update_patient_parameters_eq. cbn [fst snd].
  assert (∃ v rest, zip (pre ++ k :: post) values
                    = zip pre values ++ (k, v) :: rest) as (v & rest & Hzip).
  { clear Hpre. revert values Hlen.
    induction pre as [|n pre IH]; intros [|w values] Hlen; simpl in *; try lia.
    - by eexists _, _.
    - destruct (IH values) as (v & rest & ->); [lia|]. by exists v, rest. }
  rewrite Hzip.
  rewrite (set_attrs_upto_stops _ (zip pre values) k v rest e); [|..|done].
  2:{ apply Forall_forall. intros [n w] Hin%elem_of_zip_l. simpl.
      rewrite Forall_forall in Hpre. by rewrite (Hpre n). }
  cbn [fst snd].
  assert (series (if writes (zip pre values ++ (k, v) :: rest)
                  then State (lists s)
                         (<[_params p:=set_attrs (series s !!! _params p)
                                         (zip pre values)]> (series s)) (trace s)
                  else s) !!! _params p
          = set_attrs (series s !!! _params p) (zip pre values)) as Hrec.
  { destruct (writes _) eqn:Hw; simpl; [by rewrite lookup_total_insert_eq|].
    destruct (zip pre values) as [|[n w] l] eqn:Hz; [done|].
    simpl in Hw. apply bool_decide_eq_false in Hw. exfalso. apply Hw.
    assert (n ∈ pre) as Hn.
    { eapply elem_of_zip_l. rewrite Hz. left. }
    rewrite Forall_forall in Hpre. by rewrite (Hpre n). }
  split; [done|]. split; [done|].
  intros n Hn. rewrite Hrec. by apply set_attrs_zip_notin.
Qed.

(** X19.  A default environment that cannot be built stops everything:
    what [load_default_simulation_env] raises is what the factory and
    [run_glucose_simulator] raise, no environment is made, the pool is
    never entered and nothing is simulated; the one event, if there is a
    logger, is the first log line. *)
Theorem build_failure_stops_everything (patient_params : string → gmap string pyval)
    (cgm_of_run : snapshot → option (list float)) (oracle : list nat)
    (theta : list (list float)) (settings : DeafultSimulationEnv)
    (ip : InferredParams) (hours : Z) (device : torch_device) (infer : bool)
    (logger : bool) (now : datetime) (s : state) (e : exn) :
  (load_default_simulation_env patient_params settings hours now s).2 = Raise e →
  (create_simulation_envs_with_custom_params patient_params theta settings ip hours
     infer now s).2 = Raise e
  ∧ (run_glucose_simulator patient_params cgm_of_run oracle theta settings ip hours
       device infer logger now s).2 = Raise e
  ∧ trace (run_glucose_simulator patient_params cgm_of_run oracle theta settings ip
             hours device infer logger now s).1
    = trace s
      ++ (if logger
          then [LogInfo "Running the glucose simulator on theta of shape, %s"]
          else []).
Proof.
  intros Hraise.
  assert (load_error settings hours = Some e) as Herr.
  { destruct (load_error settings hours) as [e'|] eqn:Herr.
    - destruct (load_default_simulation_env_raise patient_params settings hours now
                  s e' Herr) as [Hr _]. congruence.
    - by rewrite load_default_simulation_env_eq in Hraise. }
  assert (∀ s0, (create_simulation_envs_with_custom_params patient_params theta
                   settings ip hours infer now s0).2 = Raise e) as Hcreate.
  { intros s0.
    destruct (load_default_simulation_env_raise patient_params settings hours now
                s0 e Herr) as [Hr _].
    unfold create_simulation_envs_with_custom_params, bind.
    by destruct (load_default_simulation_env patient_params settings hours now s0)
      as [s1 [d|e']]; simplify_eq/=. }
  split; [apply Hcreate|].
  rewrite run_glucose_simulator_eq. cbv zeta.
  set (s0 := (log_info logger "Running the glucose simulator on theta of shape, %s"
                s).1).
  pose proof (Hcreate s0) as Hc.
  pose proof (create_simulation_envs_trace patient_params theta settings ip hours
                infer now s0) as Htr.
  assert (trace s0
          = trace s
            ++ (if logger
                then [LogInfo "Running the glucose simulator on theta of shape, %s"]
                else [])) as Ht0.
  { subst s0. destruct logger; simpl; [done|]. by rewrite app_nil_r. }
  destruct (create_simulation_envs_with_custom_params _ _ _ _ _ _ _ s0)
    as [s1 [envs|e']]; simplify_eq/=.
  split; [done|]. by rewrite Htr.
Qed.

End Collaborators.

(** * The theorems at work on the sample data *)

(** ** What the class and the tables refuse *)

(** A read-only property of the class stops the patch with
    [AttributeError], and nothing is written. *)
Example patch_values_raises_AttributeError :
  set_custom_params sample_class sample_sim [float_of_Z 5] (Inferred ["values"]) false
    sample_state
  = (sample_state, Raise AttributeError).
Proof. reflexivity. Qed.

(** [index] rejects a float with [TypeError]; the name before it has been
    bound by then. *)
Example patch_index_raises_TypeError :
  (set_custom_params sample_class sample_sim [float_of_Z 70; float_of_Z 5]
     (Inferred ["BW"; "index"]) false sample_state).2 = Raise TypeError
  ∧ (series (set_custom_params sample_class sample_sim [float_of_Z 70; float_of_Z 5]
               (Inferred ["BW"; "index"]) false sample_state).1
       !!! ploc sample_sim) !! "BW" = Some (VFloat (float_of_Z 70)).
Proof. split; reflexivity. Qed.

(** A patient the table lacks, and a duration [timedelta] cannot hold. *)
Example load_unknown_patient_raises :
  (load_default_simulation_env sample_unknown sample_unknown sample_unknown
     sample_params (Default "nobody" "Dexcom" "Insulet" 1%positive 24) 24
     (Datetime 100 5) sample_state).2
  = Raise IndexError.
Proof. reflexivity. Qed.

Example load_huge_hours_raises :
  (load_default_simulation_env sample_unknown sample_unknown sample_unknown
     sample_params sample_settings 24000000000 (Datetime 100 5) sample_state).2
  = Raise OverflowError
  ∧ ∃ d, (load_default_simulation_env sample_unknown sample_unknown sample_unknown
            sample_params sample_settings 23999999999 (Datetime 100 5)
            sample_state).2 = Ok d.
Proof. split; [reflexivity|]. eexists. reflexivity. Qed.

(** An attribute bound outside the index does not reach a deep copy. *)
Example copy_drops_unlabelled_attribute :
  let s1 := (set_custom_params sample_class sample_sim [float_of_Z 5] (Inferred ["bw"])
               false sample_state).1 in
  (series s1 !!! ploc sample_sim) !! "bw" = Some (VFloat (float_of_Z 5))
  ∧ ∃ s2 c, deepcopy sample_params sample_sim s1 = (s2, Ok c)
            ∧ (series s2 !!! ploc c) !! "bw" = None
            ∧ (series s2 !!! ploc c) !! "BW" = Some (VFloat (float_of_Z 68)).
Proof.
  split; [reflexivity|]. eexists _, _. split; [apply deepcopy_eq|].
  split; vm_compute; reflexivity.
Qed.

(** ** The claims *)

Lemma patch_BW_and_breakfast_witness :
  lists sample_state !!! sloc sample_sim = [(VStr "breakfast", VInt 40)]
  ∧ ∃ s', set_custom_params sample_class sample_sim [float_of_Z 70; float_of_Z 60]
            (Inferred ["BW"; "meal_1"]) true sample_state = (s', Ok tt)
          ∧ (series s' !!! ploc sample_sim) !! "BW" = Some (VFloat (float_of_Z 70))
          ∧ lists s' !!! sloc sample_sim
            = [(VStr "breakfast", VFloat (float_of_Z 60))].
Proof.
  split; [reflexivity|].
  apply (patch_BW_and_breakfast sample_class sample_sim sample_state). reflexivity.
Defined.

Lemma patcher_frames_witness :
  lists (set_custom_params sample_class sample_sim [float_of_Z 70; float_of_Z 60]
           (Inferred ["BW"; "meal_1"]) false sample_state).1
  = lists sample_state
  ∧ series (set_custom_params sample_class sample_sim [float_of_Z 60]
              (Inferred ["meal_1"]) true sample_state).1
    = series sample_state.
Proof.
  split.
  - destruct (patcher_frames sample_class sample_sim [float_of_Z 70; float_of_Z 60]
                (Inferred ["BW"; "meal_1"]) false sample_state) as (H & _).
    apply H. left. reflexivity.
  - destruct (patcher_frames sample_class sample_sim [float_of_Z 60]
                (Inferred ["meal_1"]) true sample_state) as (_ & H & _).
    apply H. repeat constructor.
Defined.

Lemma dimension_errors_witness :
  set_custom_params sample_class sample_sim [float_of_Z 70] (Inferred ["BW"; "meal_1"])
    true sample_state
  = (sample_state, Raise IndexError).
Proof.
  destruct (dimension_errors sample_class sample_sim [float_of_Z 70]
              (Inferred ["BW"; "meal_1"]) true sample_state) as (H & _).
  apply H. simpl. lia.
Defined.

(** C4, the claim as worded, fails: one meal value against a scenario of
    two meals, with [infer_meal_params] true.  The counts differ, an
    [IndexError] is raised, and by then the first scenario entry has been
    overwritten. *)
Lemma meal_count_mismatch_mutates :
  meal_values_of ["meal_1"] [float_of_Z 60] = Some [float_of_Z 60]
  ∧ length (lists two_meal_state !!! sloc sample_sim) = 2
  ∧ (set_custom_params sample_class sample_sim [float_of_Z 60] (Inferred ["meal_1"])
       true two_meal_state).2 = Raise IndexError
  ∧ lists (set_custom_params sample_class sample_sim [float_of_Z 60]
             (Inferred ["meal_1"]) true two_meal_state).1 !!! sloc sample_sim
    = [(VStr "breakfast", VFloat (float_of_Z 60)); (VStr "lunch", VInt 50)]
  ∧ (set_custom_params sample_class sample_sim [float_of_Z 60] (Inferred ["meal_1"])
       true two_meal_state).1 ≠ two_meal_state.
Proof.
  repeat split; try reflexivity.
  intros Heq. apply (f_equal (λ st, lists st !!! sloc sample_sim)) in Heq.
  vm_compute in Heq. discriminate.
Qed.

Lemma surplus_entries_ignored_witness :
  length (params_names (Inferred ["BW"; "meal_1"]))
  < length [float_of_Z 70; float_of_Z 60; float_of_Z 5]
  ∧ set_custom_params sample_class sample_sim
      [float_of_Z 70; float_of_Z 60; float_of_Z 5]
      (Inferred ["BW"; "meal_1"]) true sample_state
    = set_custom_params sample_class sample_sim [float_of_Z 70; float_of_Z 60]
        (Inferred ["BW"; "meal_1"]) true sample_state.
Proof.
  split; [simpl; lia|].
  apply (surplus_entries_ignored sample_class sample_sim
           [float_of_Z 70; float_of_Z 60; float_of_Z 5]
           (Inferred ["BW"; "meal_1"]) true sample_state).
  simpl. lia.
Defined.

Lemma unknown_name_is_bound_witness :
  ∃ s', set_custom_params sample_class sample_sim [float_of_Z 5] (Inferred ["bw"])
          false sample_state = (s', Ok tt)
        ∧ (series s' !!! ploc sample_sim) !! "bw" = Some (VFloat (float_of_Z 5))
        ∧ trace s' = trace sample_state
        ∧ ("bw" ∉ Series_index sample_params (pat_name (patient (env sample_sim))) →
           ∀ s2 c, deepcopy sample_params sample_sim s' = (s2, Ok c) →
                   (series s2 !!! ploc c) !! "bw" = None).
Proof.
  apply (unknown_name_is_bound sample_class sample_params sample_sim [float_of_Z 5]
           (Inferred ["bw"]) false sample_state 0 "bw" (float_of_Z 5)).
  - simpl. lia.
  - constructor; [right; reflexivity|constructor].
  - intros H. discriminate H.
  - reflexivity.
  - reflexivity.
  - reflexivity.
  - reflexivity.
  - intros [|j] Hj; [lia|]. simpl. discriminate.
  - reflexivity.
Defined.

(** C3, the claim as worded, fails: the record of the sample patient has
    no attribute "bw", nor has its class, the name is not a meal name, and
    the patcher raises nothing; it returns with the attribute created. *)
Lemma unknown_name_raises_nothing :
  (series sample_state !!! ploc sample_sim) !! "bw" = None
  ∧ Series_attr sample_class "bw" = NoAttribute
  ∧ contains "meal" "bw" = false
  ∧ (set_custom_params sample_class sample_sim [float_of_Z 5] (Inferred ["bw"]) false
       sample_state).2 = Ok tt
  ∧ (series (set_custom_params sample_class sample_sim [float_of_Z 5] (Inferred ["bw"])
               false sample_state).1 !!! ploc sample_sim) !! "bw"
    = Some (VFloat (float_of_Z 5)).
Proof. repeat split; reflexivity. Qed.

Lemma create_envs_one_per_row_in_order_witness :
  ∃ s1 d,
    load_default_simulation_env sample_unknown sample_unknown sample_unknown
      sample_params sample_settings 24 (Datetime 100 5) sample_state = (s1, Ok d)
    ∧ ∃ s' envs,
        create_simulation_envs_with_custom_params sample_class sample_unknown
          sample_unknown sample_unknown sample_params
          [[float_of_Z 70; float_of_Z 60]; [float_of_Z 71; float_of_Z 61]]
          sample_settings (Inferred ["BW"; "meal_1"]) 24 true (Datetime 100 5)
          sample_state = (s', Ok envs)
        ∧ length envs = 2
        ∧ ∀ i row e,
            [[float_of_Z 70; float_of_Z 60]; [float_of_Z 71; float_of_Z 61]] !! i
            = Some row →
            envs !! i = Some e →
            patched_alone sample_class sample_params d (Inferred ["BW"; "meal_1"])
              true row s1
            = Some (snapshot_of s' e).
Proof.
  eexists _, _. split; [by apply load_default_simulation_env_eq|].
  apply (create_envs_one_per_row_in_order sample_class sample_unknown sample_unknown
           sample_unknown sample_params
           [[float_of_Z 70; float_of_Z 60]; [float_of_Z 71; float_of_Z 61]]
           sample_settings (Inferred ["BW"; "meal_1"]) 24 true (Datetime 100 5)
           sample_state).
  - eexists. reflexivity.
  - by apply load_default_simulation_env_eq.
  - repeat constructor.
  - constructor; [right; reflexivity|].
    constructor; [left; reflexivity|constructor].
  - intros _ _. vm_compute. lia.
Defined.

(** C2, the claim as worded, fails: a matrix of shape (1, 1) with one
    name, "meal_1", and a default scenario of two meals.  The default
    environment is built, and the factory raises [IndexError] and returns
    no list. *)
Lemma create_envs_raises_on_long_scenario :
  Forall (λ row, length row = length (params_names (Inferred ["meal_1"])))
    [[float_of_Z 60]]
  ∧ (∃ d, (load_default_simulation_env sample_unknown sample_unknown sample_unknown
             sample_params sample_settings 24 (Datetime 100 5) two_meal_state).2
          = Ok d)
  ∧ (create_simulation_envs_with_custom_params sample_class sample_unknown
       sample_unknown sample_unknown sample_params [[float_of_Z 60]]
       sample_settings (Inferred ["meal_1"]) 24 true (Datetime 100 5)
       two_meal_state).2 = Raise IndexError.
Proof. split; [repeat constructor|]. split; [eexists|]; reflexivity. Qed.

Lemma default_env_never_mutated_witness :
  ∃ s1 d,
    load_default_simulation_env sample_unknown sample_unknown sample_unknown
      sample_params sample_settings 24 (Datetime 100 5) two_meal_state = (s1, Ok d)
    ∧ ∀ s' r,
        create_simulation_envs_with_custom_params sample_class sample_unknown
          sample_unknown sample_unknown sample_params
          [[float_of_Z 60]; [float_of_Z 61]] sample_settings (Inferred ["meal_1"])
          24 true (Datetime 100 5) two_meal_state = (s', r) →
        snapshot_of s' d = snapshot_of s1 d
        ∧ lists s' !! scenario sample_settings
          = lists two_meal_state !! scenario sample_settings
        ∧ (∀ hours' now',
             baseline sample_unknown sample_unknown sample_unknown sample_params
               sample_settings hours' now' s'
             = baseline sample_unknown sample_unknown sample_unknown sample_params
                 sample_settings hours' now' two_meal_state)
        ∧ (∀ s2 c, deepcopy sample_params d s' = (s2, Ok c) →
                   snapshot_of s2 c = snapshot_of s1 d).
Proof.
  eexists _, _. split; [by apply load_default_simulation_env_eq|].
  apply (default_env_never_mutated sample_class sample_unknown sample_unknown
           sample_unknown sample_params [[float_of_Z 60]; [float_of_Z 61]]
           sample_settings (Inferred ["meal_1"]) 24 true (Datetime 100 5)
           two_meal_state).
  - eexists. reflexivity.
  - by apply load_default_simulation_env_eq.
Defined.

Lemma simulate_batch_sizes_0_and_1_witness :
  (simulate_batch sample_cgm [] [sample_sim] cpu false sample_state).2
  = Ok (MkTensor [map to_float32 [float_of_Z 68; float_of_Z 68]] float32 cpu).
Proof.
  destruct (simulate_batch_sizes_0_and_1 sample_cgm [] cpu false sample_state)
    as (_ & H).
  apply H. reflexivity.
Defined.

(** C5, the claim as worded, fails: on the empty list the pool is entered
    and its map is called, and the call ends in [ValueError], not in an
    empty batch. *)
Lemma empty_batch_enters_pool_and_raises :
  simulate_batch sample_cgm [] [] cpu false sample_state
  = (State (lists sample_state) (series sample_state) [PoolEnter; PoolMap 0; PoolExit],
     Raise ValueError).
Proof. reflexivity. Qed.

Lemma simulate_batch_float32_on_device_witness :
  (simulate_batch sample_cgm [1] [sample_sim; second_sim] (cuda 0) false two_env_state).2
  = Ok (MkTensor (map (map to_float32)
                    [[float_of_Z 68; float_of_Z 68]; [float_of_Z 70; float_of_Z 70]])
          float32 (cuda 0)).
Proof.
  destruct (simulate_batch_float32_on_device sample_cgm [1] [sample_sim; second_sim]
              (cuda 0) false two_env_state) as (_ & H).
  apply H; [reflexivity|repeat constructor].
Defined.

(** ** Further properties *)

Lemma separate_keeps_order_witness :
  ∃ mi mv op ov,
    (_separate_parameters ["kabs"; "meal_1"; "BW"; "meal_2"]
       [float_of_Z 1; float_of_Z 2; float_of_Z 3; float_of_Z 4] sample_state).2
    = Ok (mi, mv, op, ov)
    ∧ op = List.filter (λ n, negb (contains "meal" n)) ["kabs"; "meal_1"; "BW"; "meal_2"]
    ∧ zip op ov
      = List.filter (λ nv : string * float, negb (contains "meal" nv.1))
          (zip ["kabs"; "meal_1"; "BW"; "meal_2"]
             [float_of_Z 1; float_of_Z 2; float_of_Z 3; float_of_Z 4])
    ∧ mv = (List.filter (λ nv : string * float, contains "meal" nv.1)
              (zip ["kabs"; "meal_1"; "BW"; "meal_2"]
                 [float_of_Z 1; float_of_Z 2; float_of_Z 3; float_of_Z 4])).*2
    ∧ length mi = length mv
    ∧ length mi + length op = length ["kabs"; "meal_1"; "BW"; "meal_2"].
Proof.
  apply (separate_keeps_order ["kabs"; "meal_1"; "BW"; "meal_2"]
           [float_of_Z 1; float_of_Z 2; float_of_Z 3; float_of_Z 4] sample_state).
  simpl. lia.
Defined.

Lemma meal_names_are_those_containing_meal_witness :
  (∀ i, i ∈ [1] ↔
        ∃ pre post, ["BW"; "first_meal_carbs"] !! i = Some (pre +:+ "meal" +:+ post))
  ∧ (∀ n, n ∈ ["BW"] ↔
          n ∈ ["BW"; "first_meal_carbs"] ∧ ¬ ∃ pre post, n = pre +:+ "meal" +:+ post).
Proof.
  apply (meal_names_are_those_containing_meal ["BW"; "first_meal_carbs"]
           [float_of_Z 70; float_of_Z 60] sample_state [1] [float_of_Z 60] ["BW"]
           [float_of_Z 70]).
  reflexivity.
Defined.

Lemma update_patient_binds_names_witness :
  (series (_update_patient_parameters sample_class (patient (env sample_sim))
             ["kabs"; "BW"; "kabs"]
             [float_of_Z 1; float_of_Z 2; float_of_Z 3] sample_state).1
     !!! _params (patient (env sample_sim))) !! "kabs"
  = Some (VFloat (float_of_Z 3)).
Proof.
  destruct (update_patient_binds_names sample_class (patient (env sample_sim))
              ["kabs"; "BW"; "kabs"]
              [float_of_Z 1; float_of_Z 2; float_of_Z 3] sample_state)
    as (_ & _ & _ & _ & H).
  destruct H as (_ & _ & H); [repeat constructor|].
  apply (H 2); [reflexivity|reflexivity|].
  intros [|[|[|j]]] Hj; try lia; simpl; discriminate.
Defined.

Lemma set_custom_params_idempotent_witness :
  ∃ s1,
    set_custom_params sample_class sample_sim [float_of_Z 70; float_of_Z 60]
      (Inferred ["BW"; "meal_1"]) true sample_state = (s1, Ok tt)
    ∧ set_custom_params sample_class sample_sim [float_of_Z 70; float_of_Z 60]
        (Inferred ["BW"; "meal_1"]) true s1 = (s1, Ok tt).
Proof.
  eexists. split; [reflexivity|].
  apply (set_custom_params_idempotent sample_class sample_sim
           [float_of_Z 70; float_of_Z 60] (Inferred ["BW"; "meal_1"]) true
           sample_state).
  reflexivity.
Defined.

Lemma meal_columns_ignored_when_not_inferring_witness :
  set_custom_params sample_class sample_sim [float_of_Z 70; float_of_Z 60]
    (Inferred ["BW"; "meal_1"]) false sample_state
  = set_custom_params sample_class sample_sim [float_of_Z 70; float_of_Z 999]
      (Inferred ["BW"; "meal_1"]) false sample_state.
Proof.
  apply (meal_columns_ignored_when_not_inferring sample_class sample_sim
           [float_of_Z 70; float_of_Z 60] [float_of_Z 70; float_of_Z 999]
           (Inferred ["BW"; "meal_1"]) sample_state).
  - simpl. lia.
  - simpl. lia.
  - intros [|[|i]] n Hn Hc; simpl in *; try done.
    injection Hn as <-. discriminate Hc.
Defined.

Lemma deepcopy_is_independent_witness :
  ∃ s' c,
    deepcopy sample_params sample_sim sample_state = (s', Ok c)
    ∧ lists s' !!! sloc c = lists sample_state !!! sloc sample_sim
    ∧ (∀ k, k ∈ Series_index sample_params (pat_name (patient (env sample_sim))) →
            (series s' !!! ploc c) !! k = (series sample_state !!! ploc sample_sim) !! k)
    ∧ (∀ k, k ∉ Series_index sample_params (pat_name (patient (env sample_sim))) →
            Series_attr sample_class k = NoAttribute →
            (series s' !!! ploc c) !! k = None)
    ∧ snapshot_of s' sample_sim = snapshot_of sample_state sample_sim
    ∧ (sloc c ∉ dom (lists sample_state)) ∧ (ploc c ∉ dom (series sample_state))
    ∧ (∀ theta ip infer,
         snapshot_of (set_custom_params sample_class c theta ip infer s').1 sample_sim
         = snapshot_of sample_state sample_sim)
    ∧ (∀ theta ip infer,
         snapshot_of (set_custom_params sample_class sample_sim theta ip infer s').1 c
         = snapshot_of s' c).
Proof.
  apply (deepcopy_is_independent sample_class sample_params sample_sim sample_state).
  - eexists. reflexivity.
  - eexists. reflexivity.
Defined.

Lemma batch_environments_share_nothing_witness :
  match create_simulation_envs_with_custom_params sample_class sample_unknown
          sample_unknown sample_unknown sample_params
          [[float_of_Z 70; float_of_Z 60]; [float_of_Z 71; float_of_Z 61]]
          sample_settings (Inferred ["BW"; "meal_1"]) 24 true (Datetime 100 5)
          sample_state with
  | (_, Ok envs) => NoDup (sloc <$> envs) ∧ NoDup (ploc <$> envs)
  | (_, Raise _) => False
  end.
Proof.
  destruct (create_simulation_envs_with_custom_params sample_class sample_unknown
              sample_unknown sample_unknown sample_params
              [[float_of_Z 70; float_of_Z 60]; [float_of_Z 71; float_of_Z 61]]
              sample_settings (Inferred ["BW"; "meal_1"]) 24 true (Datetime 100 5)
              sample_state) as [s' [envs|e]] eqn:Hrun.
  - destruct (batch_environments_share_nothing sample_class sample_unknown
                sample_unknown sample_unknown sample_params
                [[float_of_Z 70; float_of_Z 60]; [float_of_Z 71; float_of_Z 61]]
                sample_settings (Inferred ["BW"; "meal_1"]) 24 true (Datetime 100 5)
                sample_state s' envs) as (H1 & H2 & _);
      [eexists; reflexivity|exact Hrun|by split].
  - vm_compute in Hrun. discriminate Hrun.
Defined.

Lemma factory_returns_iff_rows_patch_witness :
  ∃ s1 d,
    load_default_simulation_env sample_unknown sample_unknown sample_unknown
      sample_params sample_settings 24 (Datetime 100 5) two_meal_state = (s1, Ok d)
    ∧ ((∃ envs, (create_simulation_envs_with_custom_params sample_class
                   sample_unknown sample_unknown sample_unknown sample_params
                   [[float_of_Z 60; float_of_Z 65]; [float_of_Z 61]]
                   sample_settings (Inferred ["meal_1"; "meal_2"]) 24 true
                   (Datetime 100 5) two_meal_state).2 = Ok envs) ↔
       Forall (λ row, is_Some (patched_alone sample_class sample_params d
                                 (Inferred ["meal_1"; "meal_2"]) true row s1))
         [[float_of_Z 60; float_of_Z 65]; [float_of_Z 61]])
    ∧ (∀ e, (create_simulation_envs_with_custom_params sample_class sample_unknown
               sample_unknown sample_unknown sample_params
               [[float_of_Z 60; float_of_Z 65]; [float_of_Z 61]]
               sample_settings (Inferred ["meal_1"; "meal_2"]) 24 true
               (Datetime 100 5) two_meal_state).2 = Raise e →
            e = IndexError
            ∨ ∃ k, k ∈ params_names (Inferred ["meal_1"; "meal_2"])
                   ∧ contains "meal" k = false
                   ∧ Series_attr sample_class k = Refuses e).
Proof.
  eexists _, _. split; [by apply load_default_simulation_env_eq|].
  apply (factory_returns_iff_rows_patch sample_class sample_unknown sample_unknown
           sample_unknown sample_params
           [[float_of_Z 60; float_of_Z 65]; [float_of_Z 61]]
           sample_settings (Inferred ["meal_1"; "meal_2"]) 24 true (Datetime 100 5)
           two_meal_state).
  - eexists. reflexivity.
  - by apply load_default_simulation_env_eq.
Defined.

Lemma no_names_gives_copies_of_the_default_witness :
  ∃ s1 d,
    load_default_simulation_env sample_unknown sample_unknown sample_unknown
      sample_params sample_settings 24 (Datetime 100 5) sample_state = (s1, Ok d)
    ∧ ∃ s' envs,
        create_simulation_envs_with_custom_params sample_class sample_unknown
          sample_unknown sample_unknown sample_params
          [[]; [float_of_Z 5]] sample_settings (Inferred []) 24 true (Datetime 100 5)
          sample_state = (s', Ok envs)
        ∧ length envs = 2
        ∧ Forall (λ e, snapshot_of s' e = snapshot_of s1 d) envs.
Proof.
  eexists _, _. split; [by apply load_default_simulation_env_eq|].
  apply (no_names_gives_copies_of_the_default sample_class sample_unknown
           sample_unknown sample_unknown sample_params [[]; [float_of_Z 5]]
           sample_settings (Inferred []) 24 true (Datetime 100 5) sample_state).
  - reflexivity.
  - eexists. reflexivity.
  - by apply load_default_simulation_env_eq.
Defined.

Lemma simulate_batch_rows_in_dispatch_order_witness :
  ∃ t, (simulate_batch sample_cgm [1; 0] [sample_sim; second_sim] cpu false
          two_env_state).2 = Ok t
       ∧ tensor_data t !! 1 = Some (map to_float32 [float_of_Z 70; float_of_Z 70]).
Proof.
  eexists. split; [reflexivity|].
  destruct (simulate_batch_rows_in_dispatch_order sample_cgm [1; 0]
              [sample_sim; second_sim] cpu false two_env_state _ eq_refl 1 second_sim
              eq_refl) as (r & Hr & Ht).
  vm_compute in Hr. injection Hr as <-. exact Ht.
Defined.

Lemma index_error_means_nothing_ran_witness :
  trace (run_glucose_simulator sample_class sample_unknown sample_unknown
           sample_unknown sample_params sample_cgm [] [[float_of_Z 60]]
           sample_settings (Inferred ["meal_1"]) 24 cpu true true (Datetime 100 5)
           two_meal_state).1
  = [LogInfo "Running the glucose simulator on theta of shape, %s"].
Proof.
  apply (index_error_means_nothing_ran sample_class sample_unknown sample_unknown
           sample_unknown sample_params sample_cgm [] [[float_of_Z 60]]
           sample_settings (Inferred ["meal_1"]) 24 cpu true true (Datetime 100 5)
           two_meal_state).
  reflexivity.
Defined.

Lemma run_glucose_simulator_end_to_end_witness :
  (run_glucose_simulator sample_class sample_unknown sample_unknown sample_unknown
     sample_params sample_cgm [1; 0]
     [[float_of_Z 70; float_of_Z 60]; [float_of_Z 71; float_of_Z 61]]
     sample_settings (Inferred ["BW"; "meal_1"]) 24 (cuda 0) true true
     (Datetime 100 5) sample_state).2
  = Ok (MkTensor (map (map to_float32)
                    [[float_of_Z 70; float_of_Z 70]; [float_of_Z 71; float_of_Z 71]])
          float32 (cuda 0)).
Proof.
  eapply (run_glucose_simulator_end_to_end sample_class sample_unknown sample_unknown
            sample_unknown sample_params sample_cgm [1; 0]
            [[float_of_Z 70; float_of_Z 60]; [float_of_Z 71; float_of_Z 61]]
            sample_settings (Inferred ["BW"; "meal_1"]) 24 (cuda 0) true true
            (Datetime 100 5) sample_state).
  - eexists. reflexivity.
  - by apply load_default_simulation_env_eq.
  - vm_compute. reflexivity.
  - repeat constructor.
Defined.

Lemma empty_matrix_raises_ValueError_witness :
  (run_glucose_simulator sample_class sample_unknown sample_unknown sample_unknown
     sample_params sample_cgm [] [] sample_settings (Inferred ["BW"]) 24 cpu false
     false (Datetime 100 5) sample_state).2 = Raise ValueError.
Proof.
  destruct (empty_matrix_raises_ValueError sample_class sample_unknown sample_unknown
              sample_unknown sample_params sample_cgm [] sample_settings
              (Inferred ["BW"]) 24 cpu false false (Datetime 100 5) sample_state
              _ _ (load_default_simulation_env_eq sample_unknown sample_unknown
                     sample_unknown sample_params sample_settings 24 (Datetime 100 5)
                     sample_state eq_refl)) as (H & _).
  exact H.
Defined.

Lemma update_patient_stops_at_refused_name_witness :
  (_update_patient_parameters sample_class (patient (env sample_sim))
     ["BW"; "values"; "kabs"] [float_of_Z 70; float_of_Z 5; float_of_Z 1]
     sample_state).2 = Raise AttributeError
  ∧ series (_update_patient_parameters sample_class (patient (env sample_sim))
              ["BW"; "values"; "kabs"] [float_of_Z 70; float_of_Z 5; float_of_Z 1]
              sample_state).1 !!! _params (patient (env sample_sim))
    = set_attrs (series sample_state !!! _params (patient (env sample_sim)))
        (zip ["BW"] [float_of_Z 70; float_of_Z 5; float_of_Z 1]).
Proof.
  destruct (update_patient_stops_at_refused_name sample_class
              (patient (env sample_sim)) ["BW"] ["kabs"] "values" AttributeError
              [float_of_Z 70; float_of_Z 5; float_of_Z 1] sample_state)
    as (H1 & H2 & _).
  - repeat constructor.
  - reflexivity.
  - simpl. lia.
  - split; [exact H1|exact H2].
Defined.

Lemma build_failure_stops_everything_witness :
  (run_glucose_simulator sample_class sample_unknown sample_unknown sample_unknown
     sample_params sample_cgm [] [[float_of_Z 70]]
     (Default "nobody" "Dexcom" "Insulet" 1%positive 24) (Inferred ["BW"]) 24 cpu
     false true (Datetime 100 5) sample_state).2 = Raise IndexError
  ∧ trace (run_glucose_simulator sample_class sample_unknown sample_unknown
             sample_unknown sample_params sample_cgm [] [[float_of_Z 70]]
             (Default "nobody" "Dexcom" "Insulet" 1%positive 24) (Inferred ["BW"]) 24
             cpu false true (Datetime 100 5) sample_state).1
    = trace sample_state
      ++ [LogInfo "Running the glucose simulator on theta of shape, %s"].
Proof.
  destruct (build_failure_stops_everything sample_class sample_unknown sample_unknown
              sample_unknown sample_params sample_cgm [] [[float_of_Z 70]]
              (Default "nobody" "Dexcom" "Insulet" 1%positive 24) (Inferred ["BW"]) 24
              cpu false true (Datetime 100 5) sample_state IndexError)
    as (_ & H1 & H2).
  - reflexivity.
  - split; [exact H1|exact H2].
Defined.
